(** * Row reconciliation of the SQLite grid editor ([save_changes], src/main.py)

    A shallow embedding of [save_changes] (src/main.py, lines 158-250) and of
    the pandas operations it calls, followed by the properties of the
    write-back routine.

    Conventions of the embedding.
    - A cell is a [value]: null ([None]/[NaN], which pandas' [isna] does not
      tell apart), a number or a string.  Numbers are whole: [VInt 5] is the
      cell 5 of an int64 column and the cell 5.0 of a float64 column, which
      Python compares equal; which of the two it is, the [dtype] of the
      column tells.  Identifiers are copied and compared, never computed
      with, so [Z] stands for the 64-bit [rowid].
    - A [DataFrame] is the list of its column labels, the dtype of every
      column and the list of its rows, every row holding one cell per label.
      Snapshots are the frames that [load_data] and the grid hand over:
      labels are distinct, rows are rectangular and no two rows carry the
      same row identifier.  The columns are int64, float64 (an integer
      column that holds a NaN) or object columns.
    - A Python [set] of integers is a [gset Z]; the order in which Python
      iterates over it is left to the host ([set_order]).
    - The connection is an interface of the host: [db_execute] runs one
      statement on a database state and answers with the new state or with
      the error message of the driver.  A transaction works on a copy
      ([working]) of the committed state. *)

From Stdlib Require Import ZArith Ascii String List.
From stdpp Require Import base decidable option list gmap sets strings pretty.

Open Scope string_scope.
Open Scope list_scope.

(** ** Cells, rows and frames *)

Inductive value :=
  | VNull
  | VInt (z : Z)
  | VStr (s : string).

Global Instance value_eq_dec : EqDecision value.
Proof. solve_decision. Defined.

(** [pd.isna] on a cell. *)
Definition isna (v : value) : bool :=
  match v with VNull => true | _ => false end.

(** The dtype of a column or of a row. *)
Inductive dtype :=
  | Int64
  | Float64
  | Object.

Global Instance dtype_eq_dec : EqDecision dtype.
Proof. solve_decision. Defined.

Record DataFrame := mkFrame {
  columns : list string;
  dtypes : list dtype;
  data : list (list value)
}.

(** A row taken out of a frame ([.loc[label]]): labels, dtype and cells. *)
Record Series := mkSeries {
  s_index : list string;
  s_dtype : dtype;
  s_values : list value
}.

(** A frame after [set_index]: the index cell of every row is kept apart. *)
Record IndexedFrame := mkIndexed {
  i_columns : list string;
  i_dtypes : list dtype;
  i_rows : list (value * list value)
}.

(** ** Exceptions *)

(** Exceptions raised by Python and pandas themselves. *)
Inductive pyexn :=
  | KeyError (key : value)
  | ValueError (msg : string).

(** What the [try] block of [save_changes] can catch: a Python exception or
    the failure of a statement, carrying the driver's message. *)
Inductive exn :=
  | PyExn (e : pyexn)
  | DBError (msg : string).

Definition res (A : Type) : Type := pyexn + A.

(** [str(e)]: a [KeyError] prints the [repr] of its key (quotes around a
    string free of quotes and escapes, as ['rowid'] is). *)
Definition str_exn (e : exn) : string :=
  match e with
  | PyExn (KeyError (VStr s)) => "'" +:+ s +:+ "'"
  | PyExn (KeyError (VInt z)) => pretty z
  | PyExn (KeyError VNull) => "nan"
  | PyExn (ValueError msg) => msg
  | DBError msg => msg
  end.

(** ** pandas operations used by [save_changes] *)

(** Position of the first column carrying [lbl]. *)
Fixpoint label_pos (lbl : string) (cols : list string) : option nat :=
  match cols with
  | [] => None
  | c :: cols' =>
      if decide (c = lbl) then Some 0%nat
      else match label_pos lbl cols' with
           | Some i => Some (S i)
           | None => None
           end
  end.

(** The cell of a row at a position (rows are rectangular). *)
Definition cell (i : nat) (row : list value) : value :=
  nth i row VNull.

(** ['lbl' in df.columns] *)
Definition has_column (lbl : string) (df : DataFrame) : bool :=
  bool_decide (lbl ∈ columns df).

(** [df[lbl]]: the column as a list of cells. *)
Definition getitem (df : DataFrame) (lbl : string) : res (list value) :=
  match label_pos lbl (columns df) with
  | Some i => inr (map (cell i) (data df))
  | None => inl (KeyError (VStr lbl))
  end.

(** [df[p(df[lbl])]]: the rows whose cell under [lbl] satisfies [p]
    (selection by a boolean mask computed from one column). *)
Definition rows_where (lbl : string) (p : value -> bool) (df : DataFrame)
  : res DataFrame :=
  match label_pos lbl (columns df) with
  | Some i =>
      inr (mkFrame (columns df) (dtypes df)
             (List.filter (fun r => p (cell i r)) (data df)))
  | None => inl (KeyError (VStr lbl))
  end.

(** The cells of a row (or the dtypes of a frame) that are not under label
    [lbl]. *)
Fixpoint drop_cells {A} (lbl : string) (cols : list string) (row : list A)
  : list A :=
  match cols, row with
  | c :: cols', v :: row' =>
      if decide (c = lbl) then drop_cells lbl cols' row'
      else v :: drop_cells lbl cols' row'
  | _, _ => []
  end.

Definition drop_label (lbl : string) (cols : list string) : list string :=
  List.filter (fun c => negb (bool_decide (c = lbl))) cols.

(** [df.drop(columns=[lbl])] *)
Definition drop_columns (lbl : string) (df : DataFrame) : DataFrame :=
  mkFrame (drop_label lbl (columns df))
          (drop_cells lbl (columns df) (dtypes df))
          (map (drop_cells lbl (columns df)) (data df)).

(** [df.empty]: some axis has length zero. *)
Definition frame_empty (df : DataFrame) : bool :=
  match columns df, data df with
  | _ :: _, _ :: _ => false
  | _, _ => true
  end.

(** [df.set_index(lbl)]: the column leaves the payload and labels the rows. *)
Definition set_index (lbl : string) (df : DataFrame) : res IndexedFrame :=
  match label_pos lbl (columns df) with
  | Some i =>
      inr (mkIndexed (drop_label lbl (columns df))
             (drop_cells lbl (columns df) (dtypes df))
             (map (fun r => (cell i r, drop_cells lbl (columns df) r)) (data df)))
  | None => inl (KeyError (VStr lbl))
  end.

(** Does an index cell carry the integer label [rid]? *)
Definition labelled (rid : Z) (v : value) : bool :=
  match v with VInt z => bool_decide (z = rid) | _ => false end.

(** The dtype of a row that crosses columns of dtypes [ds]: the dtype they
    share, float64 for a mix of numeric columns, object otherwise.  A row
    without columns is an empty array of numpy's default dtype. *)
Definition common_dtype (ds : list dtype) : dtype :=
  if forallb (fun d => bool_decide (d = Int64)) ds then
    match ds with [] => Float64 | _ => Int64 end
  else if forallb (fun d => negb (bool_decide (d = Object))) ds then Float64
  else Object.

(** [frame.loc[rid]]: the row labelled [rid], as a Series over the payload
    columns; [KeyError] when no row carries the label.  Row identifiers are
    unique in a snapshot, so the label selects one row. *)
Definition loc (rid : Z) (f : IndexedFrame) : res Series :=
  match List.find (fun r => labelled rid (fst r)) (i_rows f) with
  | Some r => inr (mkSeries (i_columns f) (common_dtype (i_dtypes f)) (snd r))
  | None => inl (KeyError (VInt rid))
  end.

Global Instance Series_eq_dec : EqDecision Series.
Proof. solve_decision. Defined.

(** [a.equals(b)]: same labels, same dtype and same cells, nulls in the same
    place counting as equal.  Two rows that hold the same numbers under
    different dtypes (int64 and float64) are not equal. *)
Definition series_equals (a b : Series) : bool := bool_decide (a = b).

(** [series.isin(ids)] on one cell. *)
Definition isin (ids : gset Z) (v : value) : bool :=
  match v with VInt z => bool_decide (z ∈ ids) | _ => false end.

(** ** Python dictionaries and strings *)

(** [d[k] = v] on a dictionary kept in insertion order. *)
Fixpoint dict_set (k : string) (v : value) (d : list (string * value))
  : list (string * value) :=
  match d with
  | [] => [(k, v)]
  | (k', v') :: d' =>
      if decide (k' = k) then (k, v) :: d' else (k', v') :: dict_set k v d'
  end.

(** [series.to_dict()] *)
Definition to_dict (s : Series) : list (string * value) :=
  fold_left (fun d kv => dict_set (fst kv) (snd kv) d)
            (combine (s_index s) (s_values s)) [].

(** [s.replace(c, by)] for a one-character pattern. *)
Fixpoint str_replace (c : Ascii.ascii) (by_ : string) (s : string) : string :=
  match s with
  | EmptyString => EmptyString
  | String a s' =>
      if Ascii.eqb a c then by_ +:+ str_replace c by_ s'
      else String a (str_replace c by_ s')
  end.

(** The bind key of a column (line 225). *)
Definition clean_key (col : string) : string :=
  str_replace "."%char EmptyString
    (str_replace ")"%char EmptyString
       (str_replace "("%char EmptyString (str_replace " "%char "_" col))).

(** ** Statements and the host *)

(** What [save_changes] sends over the connection.
    - [Delete t ids]: [DELETE FROM t WHERE rowid IN (ids)] (line 191);
    - [Insert t cols rows]: the append done by [to_sql] (line 202);
    - [Update t sets params]: [UPDATE "t" SET "col" = :key, ... WHERE rowid = :rowid]
      with its bind parameters (lines 236-241); [sets] lists the pairs
      (column, bind key) of the SET clause. *)
Inductive stmt :=
  | Delete (table : string) (ids : list Z)
  | Insert (table : string) (cols : list string) (rows : list (list value))
  | Update (table : string) (set_clauses : list (string * string))
           (params : gmap string value).

(** The host of the routine: the storage backend behind the connection and
    the parts of the Python runtime the source leaves unspecified. *)
Class Host := {
  DB : Type;
  (** one statement on a database state: the error message or the new state *)
  db_execute : stmt -> DB -> string + DB;
  (** iteration order of a set of integers *)
  set_order : gset Z -> list Z;
  set_order_perm : forall s, set_order s ≡ₚ elements s;
  (** [hash(str)] *)
  py_hash : string -> Z;
  (** [int(str)]: the message of the [ValueError] or the integer *)
  py_int : string -> string + Z
}.

(** Values kept in [st.session_state]. *)
Inductive sval :=
  | SNone
  | SBool (b : bool)
  | SStr (s : string).

(** Python truth value. *)
Definition truthy (v : sval) : bool :=
  match v with
  | SNone => false
  | SBool b => b
  | SStr s => negb (bool_decide (s = EmptyString))
  end.

Section Reconciler.
Context {host : Host}.

(** [astype(int)] on one cell. *)
Definition astype_int (v : value) : res Z :=
  match v with
  | VInt z => inr z
  | VStr s => match py_int s with
              | inl msg => inl (ValueError msg)
              | inr z => inr z
              end
  | VNull => inl (ValueError "cannot convert float NaN to integer")
  end.

Fixpoint astype_int_all (col : list value) : res (list Z) :=
  match col with
  | [] => inr []
  | v :: col' =>
      match astype_int v with
      | inl e => inl e
      | inr z => match astype_int_all col' with
                 | inl e => inl e
                 | inr zs => inr (z :: zs)
                 end
      end
  end.

(** [series.dropna()] *)
Definition dropna (col : list value) : list value :=
  List.filter (fun v => negb (isna v)) col.

(** [get_ids] (lines 173-174): [set(df['rowid'].dropna().astype(int))]. *)
Definition get_ids (df : DataFrame) : res (gset Z) :=
  match getitem df "rowid" with
  | inl e => inl e
  | inr col => match astype_int_all (dropna col) with
               | inl e => inl e
               | inr zs => inr (list_to_set zs)
               end
  end.

(** Lines 185 and 206. *)
Definition deleted_ids (orig_ids current_ids : gset Z) : gset Z :=
  orig_ids ∖ current_ids.
Definition common_ids (orig_ids current_ids : gset Z) : gset Z :=
  orig_ids ∩ current_ids.

(** ** The connection, the session and the monad of the [try] block *)

Record state := mkState {
  committed : DB;                        (* what other readers see *)
  working : DB;                          (* the open transaction's view *)
  sent : list (stmt * option string);    (* statements sent on this connection,
                                            each with its error if it failed *)
  session_state : gmap string sval;      (* st.session_state *)
  shown : list string                    (* messages put on the page by st.error *)
}.

Definition M (A : Type) : Type := state -> (exn + A) * state.

Definition ret {A} (a : A) : M A := fun st => (inr a, st).
Definition raise {A} (e : exn) : M A := fun st => (inl e, st).
Definition bind {A B} (k : A -> M B) (m : M A) : M B :=
  fun st => match m st with
            | (inl e, st') => (inl e, st')
            | (inr a, st') => k a st'
            end.
Definition lift {A} (r : res A) : M A :=
  match r with inl e => raise (PyExn e) | inr a => ret a end.

(** [x ← m; k] and [m;; k] below are sequencing in [M]. *)
#[global] Instance M_ret : MRet M := @ret.
#[global] Instance M_bind : MBind M := @bind.

(** [conn.execute(stmt)] (and [to_sql] for an [Insert]). *)
Definition execute (s : stmt) : M unit := fun st =>
  match db_execute s (working st) with
  | inr d =>
      (inr tt, mkState (committed st) d (sent st ++ [(s, None)])
                       (session_state st) (shown st))
  | inl msg =>
      (inl (DBError msg),
       mkState (committed st) (working st) (sent st ++ [(s, Some msg)])
               (session_state st) (shown st))
  end.

(** [engine.connect()] then [conn.begin()]: a fresh connection whose
    transaction starts from the committed state. *)
Definition begin (st : state) : state :=
  mkState (committed st) (committed st) [] (session_state st) (shown st).

(** [trans.commit()] *)
Definition commit : M unit := fun st =>
  (inr tt, mkState (working st) (working st) (sent st)
                   (session_state st) (shown st)).

(** [trans.rollback()], also what leaving the [with] block does to a
    transaction that was not committed. *)
Definition rollback (st : state) : state :=
  mkState (committed st) (committed st) (sent st) (session_state st) (shown st).

(** [st.session_state[k] = v] *)
Definition session_set (k : string) (v : sval) (st : state) : state :=
  mkState (committed st) (working st) (sent st)
          (<[k := v]> (session_state st)) (shown st).

(** [st.error(msg)] *)
Definition st_error (msg : string) : M unit := fun st =>
  (inr tt, mkState (committed st) (working st) (sent st) (session_state st)
                   (shown st ++ [msg])).

(** ** [save_changes] *)

(** Lines 219-239: the SET clause and the bind parameters of one row. *)
Definition update_step (acc : gmap string value * list (string * string))
    (cv : string * value) : gmap string value * list (string * string) :=
  let '(clean_update_data, set_clauses) := acc in
  let '(col, val) := cv in
  let key := clean_key col in
  let key := if bool_decide (is_Some (clean_update_data !! key))
             then key +:+ "_" +:+ pretty (py_hash col) else key in
  (<[key := val]> clean_update_data, set_clauses ++ [(col, key)]).

Definition update_stmt (table_name : string) (rid : Z) (row_new : Series) : stmt :=
  let raw_update_data := to_dict row_new in
  let '(clean_update_data, set_clauses) :=
    fold_left update_step raw_update_data (∅, []) in
  Update table_name set_clauses (<["rowid" := VInt rid]> clean_update_data).

(** Lines 211-242: the loop over the common identifiers. *)
Fixpoint update_loop (table_name : string)
    (existing_rows_edited existing_rows_orig : IndexedFrame)
    (rids : list Z) (changes_count : nat) : M nat :=
  match rids with
  | [] => ret changes_count
  | rid :: rids' =>
      row_new ← lift (loc rid existing_rows_edited);
      row_orig ← lift (loc rid existing_rows_orig);
      if negb (series_equals row_new row_orig) then
        execute (update_stmt table_name rid row_new);;
        update_loop table_name existing_rows_edited existing_rows_orig rids'
                    (S changes_count)
      else
        update_loop table_name existing_rows_edited existing_rows_orig rids'
                    changes_count
  end.

(** Line 245. *)
Definition success_text (added deleted updated : nat) : string :=
  "Successfully saved changes! (Added: " +:+ pretty added +:+
  ", Deleted: " +:+ pretty deleted +:+
  ", Updated: " +:+ pretty updated +:+ ")".

Definition trigger_key (table_name : string) : string :=
  "editor_" +:+ table_name +:+ "_trigger".

(** [st.session_state[k] = v] and [st.session_state.get(k, dflt)] inside
    the [try] block. *)
Definition session_put (k : string) (v : sval) : M unit := fun st =>
  (inr tt, session_set k v st).
Definition session_get (k : string) (dflt : sval) : M sval := fun st =>
  (inr (default dflt (session_state st !! k)), st).

(** How the [try] block was left without an exception: by the [return] of
    line 167 or through its last line. *)
Inductive finish := Rejected | Saved.

(** Lines 187-192: one DELETE for all the identifiers that left the grid. *)
Definition handle_deletions (table_name : string) (deleted : gset Z) : M unit :=
  if bool_decide (deleted ≠ ∅)
  then execute (Delete table_name (set_order deleted))
  else ret tt.

(** Lines 199-202: the new rows go to [to_sql] without their [rowid] column. *)
Definition handle_additions (table_name : string) (new_rows : DataFrame) : M unit :=
  if negb (frame_empty new_rows) then
    let rows_to_insert := drop_columns "rowid" new_rows in
    execute (Insert table_name (columns rows_to_insert) (data rows_to_insert))
  else ret tt.

(** Lines 207-208: [df[df['rowid'].isin(common_ids)].set_index('rowid')]. *)
Definition existing_rows (common : gset Z) (df : DataFrame) : res IndexedFrame :=
  match rows_where "rowid" (isin common) df with
  | inl e => inl e
  | inr rows => set_index "rowid" rows
  end.

(** Lines 176-242: the three phases, giving the counts of line 245. *)
Definition reconcile (table_name : string) (original_df edited_df : DataFrame)
  : M (nat * nat * nat) :=
  orig_ids ← lift (get_ids original_df);
  (* 1. deletions *)
  current_ids ← lift (get_ids edited_df);
  let deleted := deleted_ids orig_ids current_ids in
  handle_deletions table_name deleted;;
  (* 2. additions *)
  new_rows ← lift (rows_where "rowid" isna edited_df);
  handle_additions table_name new_rows;;
  (* 3. updates *)
  let common := common_ids orig_ids current_ids in
  existing_rows_edited ← lift (existing_rows common edited_df);
  existing_rows_orig ← lift (existing_rows common original_df);
  changes_count ←
    update_loop table_name existing_rows_edited existing_rows_orig
                (set_order common) 0;
  ret (length (data new_rows), size deleted, changes_count).

(** The [try] block, lines 162-246. *)
Definition try_block (table_name : string) (original_df edited_df : DataFrame)
  : M finish :=
  if negb (has_column "rowid" original_df) then
    st_error "Cannot save changes: 'rowid' column missing.";;
    ret Rejected
  else
    counts ← reconcile table_name original_df edited_df;
    commit;;
    session_put "success_message"
      (SStr (success_text counts.1.1 counts.1.2 counts.2));;
    trigger ← session_get (trigger_key table_name) (SBool false);
    session_put (trigger_key table_name) (SBool (negb (truthy trigger)));;
    ret Saved.

(** Which way [save_changes] went; the function itself returns [None]. *)
Inductive outcome :=
  | Reject                 (* line 167 *)
  | Commit                 (* line 244 reached, messages of 245-246 stored *)
  | Abort (e : exn).       (* lines 248-250 *)

(** [save_changes], lines 158-250. *)
Definition save_changes (table_name : string) (original_df edited_df : DataFrame)
    (st : state) : outcome * state :=
  match try_block table_name original_df edited_df (begin st) with
  | (inr Rejected, st') => (Reject, rollback st')
  | (inr Saved, st') => (Commit, st')
  | (inl e, st') =>
      (Abort e,
       session_set "error_message"
         (SStr ("Error saving changes: " +:+ str_exn e)) (rollback st'))
  end.

End Reconciler.

(** ** A reference host

    A small relational store standing for the backend: tables of rows keyed
    by an engine-assigned integer, with NOT NULL columns as the only
    constraint.  The properties of the reconciler below hold for every host;
    this one runs the routine on concrete snapshots. *)

Module Store.

Record table := mkTable {
  not_null : list string;
  rows : list (Z * list (string * value))
}.

Abbreviation db := (gmap string table).

Definition rowids (t : table) : list Z := map fst (rows t).

(** The identifier the engine gives to the next row. *)
Definition next_rowid (t : table) : Z :=
  (fold_right Z.max 0 (rowids t) + 1)%Z.

Fixpoint field (c : string) (payload : list (string * value)) : option value :=
  match payload with
  | [] => None
  | (c', v) :: payload' => if decide (c' = c) then Some v else field c payload'
  end.

(** The first NOT NULL column that a payload leaves null. *)
Definition violated (t : table) (payload : list (string * value)) : option string :=
  List.find (fun c => match field c payload with
                      | Some VNull | None => true
                      | Some _ => false
                      end) (not_null t).

Definition constraint_error (name c : string) : string :=
  "NOT NULL constraint failed: " +:+ name +:+ "." +:+ c.

(** Appending the rows of an [Insert], one by one. *)
Fixpoint insert_rows (name : string) (cols : list string)
    (new : list (list value)) (t : table) : string + table :=
  match new with
  | [] => inr t
  | r :: new' =>
      let payload := combine cols r in
      match violated t payload with
      | Some c => inl (constraint_error name c)
      | None =>
          insert_rows name cols new'
            (mkTable (not_null t) (rows t ++ [(next_rowid t, payload)]))
      end
  end.

(** One assignment of a SET clause on a row; the column [rowid] is the
    row's identifier itself. *)
Definition assign (params : gmap string value)
    (row : string + (Z * list (string * value))) (ck : string * string)
  : string + (Z * list (string * value)) :=
  match row with
  | inl msg => inl msg
  | inr (rid, payload) =>
      match params !! snd ck with
      | None => inl ("A value is required for bind parameter '" +:+ snd ck +:+ "'")
      | Some v =>
          if decide (fst ck = "rowid") then
            match v with
            | VInt z => inr (z, payload)
            | _ => inl "datatype mismatch"
            end
          else inr (rid, dict_set (fst ck) v payload)
      end
  end.

Fixpoint update_rows (name : string) (t : table) (target : value)
    (sets : list (string * string)) (params : gmap string value)
    (rs : list (Z * list (string * value)))
  : string + list (Z * list (string * value)) :=
  match rs with
  | [] => inr []
  | (rid, payload) :: rs' =>
      if bool_decide (target = VInt rid) then
        match fold_left (assign params) sets (inr (rid, payload)) with
        | inl msg => inl msg
        | inr (rid', payload') =>
            match violated t payload' with
            | Some c => inl (constraint_error name c)
            | None =>
                match update_rows name t target sets params rs' with
                | inl msg => inl msg
                | inr rs'' => inr ((rid', payload') :: rs'')
                end
            end
        end
      else
        match update_rows name t target sets params rs' with
        | inl msg => inl msg
        | inr rs'' => inr ((rid, payload) :: rs'')
        end
  end.

Definition run (s : stmt) (d : db) : string + db :=
  let name := match s with
              | Delete n _ | Insert n _ _ | Update n _ _ => n
              end in
  match d !! name with
  | None => inl ("no such table: " +:+ name)
  | Some t =>
      match s with
      | Delete _ ids =>
          inr (<[name := mkTable (not_null t)
                   (List.filter (fun r => negb (bool_decide (fst r ∈ ids))) (rows t))]> d)
      | Insert _ cols new =>
          match insert_rows name cols new t with
          | inl msg => inl msg
          | inr t' => inr (<[name := t']> d)
          end
      | Update _ sets params =>
          match params !! "rowid" with
          | None => inl "A value is required for bind parameter 'rowid'"
          | Some target =>
              match update_rows name t target sets params (rows t) with
              | inl msg => inl msg
              | inr rs => inr (<[name := mkTable (not_null t) rs]> d)
              end
          end
      end
  end.

(** [int(s)] for a plain decimal literal. *)
Fixpoint digits (s : string) (acc : Z) : option Z :=
  match s with
  | EmptyString => Some acc
  | String a s' =>
      let n := nat_of_ascii a in
      if bool_decide (48 ≤ n ≤ 57)%nat
      then digits s' (10 * acc + Z.of_nat (n - 48))%Z
      else None
  end.

Definition int_of_literal (s : string) : string + Z :=
  match s with
  | EmptyString => inl "invalid literal for int() with base 10: ''"
  | _ => match digits s 0 with
         | Some z => inr z
         | None => inl ("invalid literal for int() with base 10: '" +:+ s +:+ "'")
         end
  end.

#[global] Instance host : Host := {|
  DB := db;
  db_execute := run;
  set_order := elements;
  set_order_perm := fun s => reflexivity (elements s);
  (* any function does: Python salts the hash of a string per process *)
  py_hash := fun s => Z.of_nat (String.length s);
  py_int := int_of_literal
|}.

Definition fresh (d : db) : state :=
  mkState d d [] ∅ [].

(** [t'] is [t] with the payloads appended, each under an identifier of the
    engine's choice: identifiers that the table did not hold, all different. *)
Definition appended (t t' : table) (ids : list Z)
    (payloads : list (list (string * value))) : Prop :=
  not_null t' = not_null t ∧
  rows t' = rows t ++ combine ids payloads ∧
  length ids = length payloads ∧
  NoDup ids ∧
  ∀ i, i ∈ ids -> i ∉ rowids t.

End Store.

(** ** Vocabulary of the properties *)

Section Vocabulary.
Context {host : Host}.

(** A statement of the log went through. *)
Definition passed (e : stmt * option string) : Prop := e.2 = None.

(** The log of a computation agrees with its result: every statement went
    through, except the last one when the computation ends on its failure. *)
Definition trace_ok {A} (r : exn + A) (new : list (stmt * option string)) : Prop :=
  match r with
  | inl (DBError msg) =>
      ∃ pre s, new = pre ++ [(s, Some msg)] ∧ Forall passed pre
  | _ => Forall passed new
  end.

(** The database after the statements of a log that went through. *)
Fixpoint replay (log : list (stmt * option string)) (d : DB) : option DB :=
  match log with
  | [] => Some d
  | (s, None) :: log' =>
      match db_execute s d with
      | inr d' => replay log' d'
      | inl _ => None
      end
  | (_, Some _) :: log' => replay log' d
  end.

(** A computation that only talks to the open transaction, sending
    statements that satisfy [P]: the transaction's view is the one obtained
    by running the statements that went through. *)
Definition txn_only {A} (P : stmt -> Prop) (m : M A) : Prop :=
  ∀ st,
    committed (m st).2 = committed st ∧
    session_state (m st).2 = session_state st ∧
    shown (m st).2 = shown st ∧
    ∃ new, sent (m st).2 = sent st ++ new ∧
           Forall (fun e => P e.1) new ∧ trace_ok (m st).1 new ∧
           replay new (working st) = Some (working (m st).2).

(** The statements [save_changes] can send for two snapshots. *)
Inductive sendable (table_name : string) (O E : DataFrame) : stmt -> Prop :=
  | send_delete orig cur :
      get_ids O = inr orig -> get_ids E = inr cur ->
      deleted_ids orig cur ≠ ∅ ->
      sendable table_name O E
        (Delete table_name (set_order (deleted_ids orig cur)))
  | send_insert new_rows :
      rows_where "rowid" isna E = inr new_rows ->
      frame_empty new_rows = false ->
      sendable table_name O E
        (Insert table_name (columns (drop_columns "rowid" new_rows))
                (data (drop_columns "rowid" new_rows)))
  | send_update orig cur fe fo rid row_new row_orig :
      get_ids O = inr orig -> get_ids E = inr cur ->
      existing_rows (common_ids orig cur) E = inr fe ->
      existing_rows (common_ids orig cur) O = inr fo ->
      rid ∈ common_ids orig cur ->
      loc rid fe = inr row_new -> loc rid fo = inr row_orig ->
      row_new ≠ row_orig ->
      sendable table_name O E (update_stmt table_name rid row_new).

(** The UPDATE statements that a run without exception sends for the
    identifiers [rids], in order. *)
Definition planned_updates (table_name : string) (fe fo : IndexedFrame)
    (rids : list Z) : list stmt :=
  flat_map (fun rid =>
              match loc rid fe, loc rid fo with
              | inr row_new, inr row_orig =>
                  if series_equals row_new row_orig then []
                  else [update_stmt table_name rid row_new]
              | _, _ => []
              end) rids.

(** All the statements of a run without exception. *)
Definition planned (table_name : string) (orig cur : gset Z)
    (new_rows : DataFrame) (fe fo : IndexedFrame) : list stmt :=
  (if bool_decide (deleted_ids orig cur ≠ ∅)
   then [Delete table_name (set_order (deleted_ids orig cur))] else []) ++
  (if frame_empty new_rows then []
   else [Insert table_name (columns (drop_columns "rowid" new_rows))
                (data (drop_columns "rowid" new_rows))]) ++
  planned_updates table_name fe fo (set_order (common_ids orig cur)).

Definition went_through (s : stmt) : stmt * option string := (s, None).

(** The state left by lines 244-246 after the three phases. *)
Definition stored (table_name : string) (counts : nat * nat * nat)
    (st : state) : state :=
  let ss := <["success_message" :=
                SStr (success_text counts.1.1 counts.1.2 counts.2)]>
              (session_state st) in
  mkState (working st) (working st) (sent st)
    (<[trigger_key table_name :=
         SBool (negb (truthy (default (SBool false)
                                (ss !! trigger_key table_name))))]> ss)
    (shown st).

(** The state left by line 166-167. *)
Definition turned_down (st : state) : state :=
  mkState (committed st) (committed st) [] (session_state st)
          (shown st ++ ["Cannot save changes: 'rowid' column missing."]).

(** The state left by lines 249-250. *)
Definition reported (e : exn) (st : state) : state :=
  session_set "error_message"
    (SStr ("Error saving changes: " +:+ str_exn e)) (rollback st).

(** The identifier cell of a row of a frame. *)
Definition rowid_of (df : DataFrame) (row : list value) : value :=
  match label_pos "rowid" (columns df) with
  | Some i => cell i row
  | None => VNull
  end.



(** The row that the update phase reads for an identifier. *)
Definition row_of (ids : gset Z) (df : DataFrame) (rid : Z) : res Series :=
  match existing_rows ids df with
  | inl e => inl e
  | inr f => loc rid f
  end.

(** The dtype of the rows that [.loc] reads from a snapshot once [rowid] is
    its index: the common dtype of the payload columns. *)
Definition payload_dtype (df : DataFrame) : dtype :=
  common_dtype (drop_cells "rowid" (columns df) (dtypes df)).


(** The rows of a snapshot whose identifier is null, and the INSERT that
    carries them: the columns and the cells without [rowid]. *)
Definition null_rows (df : DataFrame) : list (list value) :=
  List.filter (fun row => isna (rowid_of df row)) (data df).

Definition insert_of (table_name : string) (df : DataFrame) : stmt :=
  Insert table_name (drop_label "rowid" (columns df))
         (map (drop_cells "rowid" (columns df)) (null_rows df)).

(** The log of the deletion phase when its statement goes through. *)
Definition deletion (table_name : string) (orig cur : gset Z)
  : list (stmt * option string) :=
  if bool_decide (deleted_ids orig cur ≠ ∅)
  then [(Delete table_name (set_order (deleted_ids orig cur)), None)]
  else [].

End Vocabulary.

(** ** Snapshots of the scenarios *)

Module Scenario.

Definition one_table (nn : list string) (rs : list (Z * list (string * value)))
  : Store.db := {[ "t" := Store.mkTable nn rs ]}.

Definition run (O E : DataFrame) (d : Store.db) : outcome * state :=
  save_changes (host := Store.host) "t" O E (Store.fresh d).

(** O = {(1,a),(2,b)}, E = {(1,a),(3,b)} *)
Definition O_ab :=
  mkFrame ["rowid"; "v"] [Int64; Object] [[VInt 1; VStr "a"]; [VInt 2; VStr "b"]].
Definition E_a3b :=
  mkFrame ["rowid"; "v"] [Int64; Object] [[VInt 1; VStr "a"]; [VInt 3; VStr "b"]].
Definition d_ab := one_table [] [(1%Z, [("v", VStr "a")]); (2%Z, [("v", VStr "b")])].

(** O = {(1,a)}, E = {(1,z)} *)
Definition O_a := mkFrame ["rowid"; "v"] [Int64; Object] [[VInt 1; VStr "a"]].
Definition E_z := mkFrame ["rowid"; "v"] [Int64; Object] [[VInt 1; VStr "z"]].
Definition d_a := one_table [] [(1%Z, [("v", VStr "a")])].

(** A grid that keeps row 1 as it is and gains a row: the identifier column
    now holds a NaN and is a float64 column. *)
Definition E_a_new :=
  mkFrame ["rowid"; "v"] [Float64; Object] [[VInt 1; VStr "a"]; [VNull; VStr "b"]].

(** A constraint met mid-transaction: row 2 leaves the grid, row 1 loses the
    value of a NOT NULL column. *)
Definition d_strict := one_table ["v"] [(1%Z, [("v", VStr "a")]); (2%Z, [("v", VStr "b")])].
Definition E_null := mkFrame ["rowid"; "v"] [Int64; Object] [[VInt 1; VNull]].

(** Snapshots without the identifier column. *)
Definition O_bare := mkFrame ["v"] [Object] [[VStr "a"]].

(** A table with an integer column, O = {(1,5)}, and the grid after an empty
    row was added to it: both columns now hold a NaN and are float64
    columns. *)
Definition O_n := mkFrame ["rowid"; "n"] [Int64; Int64] [[VInt 1; VInt 5]].
Definition E_n_new :=
  mkFrame ["rowid"; "n"] [Float64; Float64] [[VInt 1; VInt 5]; [VNull; VNull]].
Definition d_n := one_table [] [(1%Z, [("n", VInt 5)])].

(** The grid of O = {(1,a),(2,b)} after an empty row was added, and the same
    with row 1 edited to z; the NOT NULL column refuses the empty row. *)
Definition E_ab_empty :=
  mkFrame ["rowid"; "v"] [Float64; Object]
    [[VInt 1; VStr "a"]; [VInt 2; VStr "b"]; [VNull; VNull]].

End Scenario.

(** ** The rest of the script

    The code around [save_changes]: the messages of the page (lines 275-282),
    the Save button (lines 317-322), the SQL tab (lines 372-394), the file
    dialog (lines 42-53) and the sidebar that selects the database (lines
    55-128).  Text typed by the user is ASCII text: [strip] and [upper] are
    modelled on the ASCII range. *)

(** What the script puts on the page. *)
Inductive notice :=
  | Success (v : sval)        (* st.success *)
  | Failure (v : sval)        (* st.error *)
  | Warning (v : sval)        (* st.warning *)
  | Info (v : sval)           (* st.info *)
  | Caption (v : sval)        (* st.caption *)
  | Download (file_name data : string)   (* st.download_button *)
  | Table (df : DataFrame).   (* st.dataframe *)

(** Lines 276-278 and 280-282, for one key and one widget:
    [if key in st.session_state and st.session_state[key]: ...]. *)
Definition show_message (key : string) (widget : sval -> notice)
    (page : list notice * gmap string sval) : list notice * gmap string sval :=
  match page.2 !! key with
  | Some v =>
      if truthy v then (page.1 ++ [widget v], <[key := SNone]> page.2)
      else page
  | None => page
  end.

(** Lines 275-282: the persistent messages, shown and cleared. *)
Definition show_messages (ss : gmap string sval)
  : list notice * gmap string sval :=
  show_message "error_message" Failure
    (show_message "success_message" Success ([], ss)).

(** A key of the session holds nothing that the page would show. *)
Definition quiet (ss : gmap string sval) (key : string) : Prop :=
  ∀ v, ss !! key = Some v -> truthy v = false.

(** Counting what a log did. *)
Definition ids_deleted (log : list (stmt * option string)) : nat :=
  sum_list_with (fun e => match e.1 with
                          | Delete _ ids => length ids
                          | _ => 0%nat
                          end) log.
Definition rows_inserted (log : list (stmt * option string)) : nat :=
  sum_list_with (fun e => match e.1 with
                          | Insert _ _ rows => length rows
                          | _ => 0%nat
                          end) log.
Definition updates_sent (log : list (stmt * option string)) : nat :=
  sum_list_with (fun e => match e.1 with
                          | Update _ _ _ => 1%nat
                          | _ => 0%nat
                          end) log.

Section SaveButton.
Context {host : Host}.

(** Lines 317-322 followed by the next run of the script up to line 282:
    [save_changes], [st.rerun()], then the messages of the new page. *)
Definition click_save (table_name : string) (df edited_df : DataFrame)
    (st : state) : outcome * list notice * state :=
  let '(o, st1) := save_changes table_name df edited_df st in
  let '(page, ss) := show_messages (session_state st1) in
  (o, page, mkState (committed st1) (working st1) (sent st1) ss (shown st1)).

End SaveButton.

(** *** Python strings *)

(** [str.isspace] on the ASCII range: tab to carriage return, the four
    separators 0x1c-0x1f and the space. *)
Definition py_isspace (a : ascii) : bool :=
  let n := nat_of_ascii a in
  (Nat.leb 9 n && Nat.leb n 13) || (Nat.leb 28 n && Nat.leb n 32).

Fixpoint lstrip (s : string) : string :=
  match s with
  | EmptyString => EmptyString
  | String a s' => if py_isspace a then lstrip s' else s
  end.

Fixpoint rstrip (s : string) : string :=
  match s with
  | EmptyString => EmptyString
  | String a s' =>
      match rstrip s' with
      | EmptyString => if py_isspace a then EmptyString else String a EmptyString
      | r => String a r
      end
  end.

(** [s.strip()] *)
Definition strip (s : string) : string := rstrip (lstrip s).

Definition upper_char (a : ascii) : ascii :=
  let n := nat_of_ascii a in
  if Nat.leb 97 n && Nat.leb n 122 then ascii_of_nat (n - 32) else a.

(** [s.upper()] *)
Fixpoint upper (s : string) : string :=
  match s with
  | EmptyString => EmptyString
  | String a s' => String (upper_char a) (upper s')
  end.

(** Every character is a whitespace. *)
Fixpoint blank (s : string) : bool :=
  match s with
  | EmptyString => true
  | String a s' => py_isspace a && blank s'
  end.

(** No character is a whitespace. *)
Fixpoint solid (s : string) : bool :=
  match s with
  | EmptyString => true
  | String a s' => negb (py_isspace a) && solid s'
  end.

(** Every character is in the ASCII range. *)
Fixpoint ascii_text (s : string) : bool :=
  match s with
  | EmptyString => true
  | String a s' => Nat.ltb (nat_of_ascii a) 128 && ascii_text s'
  end.

(** *** The SQL tab *)

(** Line 383, on [query_upper]. *)
Definition returns_rows (query_upper : string) : bool :=
  String.prefix "SELECT" query_upper || String.prefix "WITH" query_upper ||
  String.prefix "PRAGMA" query_upper || String.prefix "EXPLAIN" query_upper.

(** Lines 382-383: how the tab classifies a query. *)
Definition is_row_query (query : string) : bool :=
  returns_rows (upper (strip query)).

Section SqlTab.
(** The engine behind the tab.  [pd.read_sql] runs the statement and reads
    its rows: it answers with a frame or raises, possibly after the statement
    has run, so it comes with the database the engine is left with once the
    connection is closed without a commit.  A statement run by
    [conn.execute] raises and changes nothing, or gives the new state and its
    row count. *)
Variable SqlDB : Type.
Variable read_sql : string -> SqlDB -> (string + DataFrame) * SqlDB.
Variable exec_sql : string -> SqlDB -> string + (SqlDB * Z).

(** Lines 377-394: the Run Query button, on the committed database. *)
Definition run_query (query : string) (d : SqlDB) : notice * SqlDB :=
  if negb (bool_decide (strip query = EmptyString)) then
    if is_row_query query then
      match read_sql query d with
      | (inr query_df, d') => (Table query_df, d')
      | (inl e, d') => (Failure (SStr ("Error executing query: " +:+ e)), d')
      end
    else
      match exec_sql query d with
      | inr (d', rowcount) =>
          (Success (SStr ("Query executed successfully. Rows affected: "
                          +:+ pretty rowcount)), d')
      | inl e => (Failure (SStr ("Error executing query: " +:+ e)), d)
      end
  else (Warning (SStr "Please enter a query."), d).

End SqlTab.

(** *** The file dialog *)

(** What [subprocess.run] did: it raised, or the command exited. *)
Inductive completed :=
  | Raised (msg : string)
  | Exited (returncode : Z) (stdout : string).

(** What the command printed, if it ran. *)
Definition printed (result : completed) : string :=
  match result with
  | Exited _ stdout => stdout
  | Raised _ => EmptyString
  end.

(** [select_file], lines 42-53: the path or [None], and what [st.error]
    showed. *)
Definition select_file (result : completed) : option string * list notice :=
  match result with
  | Exited returncode stdout =>
      if bool_decide (returncode = 0%Z) then (Some (strip stdout), [])
      else (None, [])
  | Raised e =>
      (None, [Failure (SStr ("Error opening file dialog: " +:+ e))])
  end.

(** Lines 109-113: the Open File button; the flag tells whether
    [st.rerun()] was called. *)
Definition click_open_file (result : completed) (ss : gmap string sval)
  : gmap string sval * list notice * bool :=
  let '(selected_file, page) := select_file result in
  match selected_file with
  | Some path =>
      if negb (bool_decide (path = EmptyString))
      then (<["db_path" := SStr path]> ss, page, true)
      else (ss, page, false)
  | None => (ss, page, false)
  end.

(** *** The sidebar *)

#[global] Instance sval_eq_dec : EqDecision sval.
Proof. solve_decision. Defined.

(** [str(v)], as an f-string prints a value of the session. *)
Definition py_str (v : sval) : string :=
  match v with
  | SNone => "None"
  | SBool true => "True"
  | SBool false => "False"
  | SStr s => s
  end.

(** The files of the machine: the content under each path. *)
Abbreviation files := (gmap string string).

(** What [st.file_uploader] gives once a file is chosen. *)
Record UploadedFile := mkUpload {
  name : string;
  getbuffer : string
}.

(** How a run of the script leaves the sidebar: [st.rerun()], [st.stop()],
    on to the rest of the script with [db_url], or an exception that nothing
    catches. *)
Inductive crash :=
  | NoKey (key : string)     (* KeyError of st.session_state[key] *)
  | NotAPath (v : sval).     (* TypeError of os.path.basename *)

Inductive flow :=
  | Rerun
  | Stop
  | Go (db_url : string)
  | Crash (e : crash).

(** The operating system under the sidebar.  On a [str] the calls look the
    path up in the files; what they do with a value that is no [str] (a
    boolean is taken for a file descriptor) is left open. *)
Class OS := {
  (** The name chosen by [tempfile.NamedTemporaryFile(delete=False,
      suffix=".db")]: a new file. *)
  tmp_name : files -> string;
  tmp_name_new : ∀ fs, fs !! tmp_name fs = None;
  tmp_name_path : ∀ fs, tmp_name fs ≠ EmptyString;
  (** [os.path.exists] *)
  path_exists : sval -> files -> bool;
  path_exists_str : ∀ p fs,
    path_exists (SStr p) fs = bool_decide (is_Some (fs !! p));
  (** [open(path, "rb")] and the bytes read from it, or the message of the
      exception. *)
  open_rb : sval -> files -> string + string;
  open_rb_str : ∀ p fs,
    match fs !! p with
    | Some data => open_rb (SStr p) fs = inr data
    | None => ∃ e, open_rb (SStr p) fs = inl e
    end
}.

(** [try: os.remove(path) except: pass] (lines 93-94): the file goes, unless
    the system refuses; on a value that is no [str] the call raises, and the
    exception is swallowed like any other. *)
Definition try_remove (path : sval) (refused : bool) (fs : files) : files :=
  match path with
  | SStr p => if refused then fs else delete p fs
  | _ => fs
  end.

Fixpoint has_slash (p : string) : bool :=
  match p with
  | EmptyString => false
  | String a p' => Ascii.eqb a "/" || has_slash p'
  end.

(** [os.path.basename] on a POSIX path: what follows the last slash. *)
Fixpoint posix_basename (p : string) : string :=
  match p with
  | EmptyString => EmptyString
  | String a p' =>
      if has_slash p' then posix_basename p'
      else if Ascii.eqb a "/" then p' else p
  end.

Definition basename (path : sval) : crash + string :=
  match path with
  | SStr p => inr (posix_basename p)
  | _ => inl (NotAPath path)
  end.

Section Sidebar.
Context {os : OS}.

(** Lines 59-99, the sidebar when [IS_CLOUD] holds: the session and the
    files it leaves, what it shows, and how it ends. *)
Definition cloud_sidebar (uploaded_db : option UploadedFile) (refused : bool)
    (ss : gmap string sval) (fs : files)
  : gmap string sval * files * list notice * flow :=
  match uploaded_db with
  | Some up =>
      if match ss !! "last_uploaded_file" with
         | None => true
         | Some last => negb (bool_decide (last = SStr (name up)))
         end
      then
        let tmp_file := tmp_name fs in
        (<["last_uploaded_file" := SStr (name up)]>
           (<["db_path" := SStr tmp_file]> ss),
         <[tmp_file := getbuffer up]> fs, [], Rerun)
      else
        match ss !! "db_path" with
        | None => (ss, fs, [], Crash (NoKey "db_path"))
        | Some path =>
            (ss, fs,
             [Success (SStr ("Loaded: `" +:+ name up +:+ "`"));
              match open_rb path fs with
              | inr data => Download (name up) data
              | inl e => Failure (SStr ("Error preparing download: " +:+ e))
              end;
              Info (SStr "⚠️ Le modifiche sono temporanee. Scarica il file per salvarle permanentemente.")],
             Go ("sqlite:///" +:+ py_str path))
        end
  | None =>
      let '(ss', fs') :=
        match ss !! "db_path" with
        | Some path =>
            (<["last_uploaded_file" := SNone]> (<["db_path" := SNone]> ss),
             if truthy path && path_exists path fs
             then try_remove path refused fs else fs)
        | None => (ss, fs)
        end in
      (ss', fs', [Info (SStr "Upload a database to start.")], Stop)
  end.

(** Lines 101-128, the sidebar on a desktop: [clicked] is what the file
    dialog did if the Open File button was pressed. *)
Definition local_sidebar (clicked : option completed)
    (ss : gmap string sval) (fs : files)
  : gmap string sval * list notice * flow :=
  let ss0 := match ss !! "db_path" with
             | None => <["db_path" := SNone]> ss
             | Some _ => ss
             end in
  let '(ss1, page, rerun) :=
    match clicked with
    | Some result => click_open_file result ss0
    | None => (ss0, [], false)
    end in
  if rerun then (ss1, page, Rerun)
  else
    match ss1 !! "db_path" with
    | None => (ss1, page, Crash (NoKey "db_path"))
    | Some selected_db_path =>
        if truthy selected_db_path then
          if path_exists selected_db_path fs then
            match basename selected_db_path with
            | inr file =>
                (ss1,
                 page ++ [Success (SStr ("Loaded: `" +:+ file +:+ "`"));
                          Caption (SStr ("Path: " +:+ py_str selected_db_path))],
                 Go ("sqlite:///" +:+ py_str selected_db_path))
            | inl e => (ss1, page, Crash e)
            end
          else
            (<["db_path" := SNone]> ss1,
             page ++ [Failure (SStr "Selected file not found. Please select again.")],
             Stop)
        else (ss1, page ++ [Info (SStr "Please select a database file.")], Stop)
    end.

(** The sessions and files that the cloud sidebar can find: a new session,
    what a run of the sidebar left, and what the rest of the script and the
    machine made of it without writing the two keys of the sidebar. *)
Inductive cloud_reachable : gmap string sval -> files -> Prop :=
  | reach_new ss fs :
      ss !! "db_path" = None -> ss !! "last_uploaded_file" = None ->
      cloud_reachable ss fs
  | reach_sidebar uploaded_db refused ss fs ss' fs' page next :
      cloud_reachable ss fs ->
      cloud_sidebar uploaded_db refused ss fs = (ss', fs', page, next) ->
      cloud_reachable ss' fs'
  | reach_rest ss fs ss' fs' :
      cloud_reachable ss fs ->
      ss' !! "db_path" = ss !! "db_path" ->
      ss' !! "last_uploaded_file" = ss !! "last_uploaded_file" ->
      cloud_reachable ss' fs'.

End Sidebar.

(** A machine to run the sidebar on: it names a temporary file by a path
    longer than every path in use. *)
Module Machine.

Fixpoint pad (n : nat) : string :=
  match n with
  | O => ".db"
  | S n' => String "x" (pad n')
  end.

Definition fresh_name (fs : files) : string :=
  "/tmp/" +:+ pad (sum_list_with String.length (map_to_list fs).*1).

Lemma pad_length n : String.length (pad n) = n + 3.
Proof. induction n as [|n IH]; cbn; [done|]. by rewrite IH. Qed.

Lemma fresh_name_new fs : fs !! fresh_name fs = None.
Proof.
  destruct (fs !! fresh_name fs) as [data|] eqn:Hin; [exfalso|done].
  apply elem_of_map_to_list in Hin.
  assert (Hkey : fresh_name fs ∈ (map_to_list fs).*1).
  { apply list_elem_of_fmap. by exists (fresh_name fs, data). }
  apply (sum_list_with_in _ String.length) in Hkey.
  unfold fresh_name in Hkey at 1.
  change (String.length ("/tmp/" +:+ ?s)) with (5 + String.length s) in Hkey.
  rewrite pad_length in Hkey. lia.
Qed.

#[global] Instance os : OS := {|
  tmp_name := fresh_name;
  tmp_name_new := fresh_name_new;
  tmp_name_path := fun fs => ltac:(discriminate);
  path_exists := fun path fs =>
    match path with
    | SStr p => bool_decide (is_Some (fs !! p))
    | _ => false
    end;
  path_exists_str := fun p fs => eq_refl;
  open_rb := fun path fs =>
    match path with
    | SStr p => match fs !! p with
                | Some data => inr data
                | None => inl ("[Errno 2] No such file or directory: '" +:+ p +:+ "'")
                end
    | _ => inl "expected str, bytes or os.PathLike object"
    end;
  open_rb_str := fun p fs =>
    match fs !! p as o
      return match o with
             | Some data => match o with
                            | Some data => inr data
                            | None => inl ("[Errno 2] No such file or directory: '" +:+ p +:+ "'")
                            end = inr data
             | None => ∃ e, match o with
                            | Some data => inr data
                            | None => inl ("[Errno 2] No such file or directory: '" +:+ p +:+ "'")
                            end = inl e
             end
    with
    | Some data => eq_refl
    | None => ex_intro _ _ eq_refl
    end
|}.

End Machine.

(** ** Facts about the monad and the phases *)

Section Facts.
Context {host : Host}.

Lemma replay_app log log' (d : DB) :
  replay (log ++ log') d = replay log d ≫= replay log'.
Proof.
  revert d. induction log as [|[s [msg|]] log IH]; intros d; cbn; [done|apply IH|].
  destruct (db_execute s d) as [msg|d']; [done|apply IH].
Qed.

Lemma txn_ret {A} P (a : A) : txn_only P (ret a).
Proof.
  intros st; cbn. repeat split. exists []. rewrite app_nil_r.
  repeat split; constructor.
Qed.

Lemma txn_execute (P : stmt -> Prop) s : P s -> txn_only P (execute s).
Proof.
  intros Hs st. unfold execute.
  destruct (db_execute s (working st)) as [msg|d] eqn:Hrun; cbn; repeat split.
  - exists [(s, Some msg)]. repeat split; [by constructor|].
    exists [], s. split; [done|constructor].
  - exists [(s, None)]. cbn. rewrite Hrun. repeat split; by repeat constructor.
Qed.

Lemma txn_bind {A B} P (m : M A) (k : A -> M B) :
  txn_only P m -> (∀ a, txn_only P (k a)) -> txn_only P (m ≫= k).
Proof.
  intros Hm Hk st. unfold mbind, M_bind, bind.
  destruct (Hm st) as (Hc & Hs & Hh & new & Hsent & HP & Ht & Hr).
  destruct (m st) as [[e|a] st1]; cbn in *.
  - repeat split; try done. by exists new.
  - destruct (Hk a st1) as (Hc' & Hs' & Hh' & new' & Hsent' & HP' & Ht' & Hr').
    repeat split; try congruence.
    exists (new ++ new'). split; [by rewrite Hsent', Hsent, app_assoc|].
    split; [by apply Forall_app|].
    split; [|by rewrite replay_app, Hr].
    destruct ((k a st1).1) as [[e|msg]|b]; cbn in *;
      try (by apply Forall_app).
    destruct Ht' as (pre & s & -> & Hpre).
    exists (new ++ pre), s. split; [by rewrite app_assoc|by apply Forall_app].
Qed.

Lemma txn_lift_bind {A B} P (r : res A) (k : A -> M B) :
  (∀ a, r = inr a -> txn_only P (k a)) -> txn_only P (lift r ≫= k).
Proof.
  intros Hk. destruct r as [e|a].
  - intros st; cbn. repeat split. exists []. rewrite app_nil_r.
    repeat split; constructor.
  - exact (Hk a eq_refl).
Qed.

Lemma in_set_order (s : gset Z) (x : Z) : x ∈ set_order s <-> x ∈ s.
Proof. by rewrite (set_order_perm s), elem_of_elements. Qed.

Lemma txn_update_loop P table_name fe fo rids count :
  (∀ rid row_new row_orig,
     rid ∈ rids -> loc rid fe = inr row_new -> loc rid fo = inr row_orig ->
     row_new ≠ row_orig -> P (update_stmt table_name rid row_new)) ->
  txn_only P (update_loop table_name fe fo rids count).
Proof.
  revert count. induction rids as [|rid rids IH]; intros count HP; cbn [update_loop].
  - apply txn_ret.
  - apply txn_lift_bind; intros row_new Hn.
    apply txn_lift_bind; intros row_orig Ho.
    assert (Hrest : ∀ c, txn_only P (update_loop table_name fe fo rids c)).
    { intros c. apply IH. intros r a b Hr. apply HP. by right. }
    unfold series_equals. case_bool_decide as Heq; cbn [negb]; [apply Hrest|].
    apply txn_bind; [|intros _; apply Hrest].
    apply txn_execute. eapply HP; eauto. by left.
Qed.

Lemma txn_reconcile table_name O E :
  txn_only (sendable table_name O E) (reconcile table_name O E).
Proof.
  unfold reconcile.
  apply txn_lift_bind; intros orig Horig.
  apply txn_lift_bind; intros cur Hcur.
  apply txn_bind.
  { unfold handle_deletions. case_bool_decide; [|apply txn_ret].
    apply txn_execute. by econstructor. }
  intros _. apply txn_lift_bind; intros new_rows Hnew.
  apply txn_bind.
  { unfold handle_additions.
    destruct (frame_empty new_rows) eqn:Hempty; cbn [negb]; [apply txn_ret|].
    apply txn_execute. by econstructor. }
  intros _. apply txn_lift_bind; intros fe Hfe.
  apply txn_lift_bind; intros fo Hfo.
  apply txn_bind; [|intros n; apply txn_ret].
  apply txn_update_loop. intros rid rn ro Hrid Hn Ho Hne.
  eapply send_update; eauto. by apply in_set_order.
Qed.

(** The three ways through [save_changes]. *)
Lemma save_changes_unfold table_name O E st :
  save_changes table_name O E st =
  if has_column "rowid" O then
    match reconcile table_name O E (begin st) with
    | (inr counts, st1) => (Commit, stored table_name counts st1)
    | (inl e, st1) => (Abort e, reported e st1)
    end
  else (Reject, turned_down st).
Proof.
  unfold save_changes, try_block.
  destruct (has_column "rowid" O); cbn [negb]; [|done].
  unfold mbind, M_bind, bind.
  by destruct (reconcile table_name O E (begin st)) as [[e|counts] st1].
Qed.

Lemma save_changes_sent table_name O E st :
  Forall (fun e => sendable table_name O E e.1)
         (sent (save_changes table_name O E st).2).
Proof.
  rewrite save_changes_unfold.
  destruct (has_column "rowid" O); [|constructor].
  destruct (txn_reconcile table_name O E (begin st))
    as (_ & _ & _ & new & Hsent & HP & _ & _).
  by destruct (reconcile table_name O E (begin st)) as [[e|counts] st1];
    cbn in *; rewrite Hsent.
Qed.

(** A failed statement in the log: the run ended on it, in the handler of
    lines 248-250, and nothing was committed. *)
Lemma failed_statement table_name O E st s msg :
  (s, Some msg) ∈ sent (save_changes table_name O E st).2 ->
  ∃ st1, save_changes table_name O E st
         = (Abort (DBError msg), reported (DBError msg) st1) ∧
         committed st1 = committed st ∧
         session_state st1 = session_state st.
Proof.
  rewrite save_changes_unfold.
  destruct (has_column "rowid" O); [|by intros ?%elem_of_nil].
  destruct (txn_reconcile table_name O E (begin st))
    as (Hc & Hs & _ & new & Hsent & _ & Ht & _).
  destruct (reconcile table_name O E (begin st)) as [r st1]; cbn in *.
  assert (Hclean : ∀ l, Forall passed l -> (s, Some msg) ∈ l -> False).
  { intros l Hall Hin. by apply (proj1 (Forall_forall _ _) Hall) in Hin. }
  destruct r as [[e|m]|counts]; cbn; rewrite Hsent; intros Hin;
    try (by destruct (Hclean _ Ht Hin)).
  destruct Ht as (pre & s' & -> & Hpre).
  apply elem_of_app in Hin as [Hin|Hin]; [by destruct (Hclean _ Hpre Hin)|].
  apply list_elem_of_singleton in Hin. injection Hin as -> ->. by exists st1.
Qed.

Lemma label_pos_None lbl cols : lbl ∉ cols -> label_pos lbl cols = None.
Proof.
  induction cols as [|c cols IH]; [done|]. intros Hnot. cbn.
  destruct (decide (c = lbl)) as [->|_]; [destruct Hnot; by left|].
  rewrite IH; [done|]. intros Hin. apply Hnot. by right.
Qed.

(** A loop that ends without exception sent exactly the planned updates. *)
Lemma update_loop_done table_name fe fo rids count st n st' :
  update_loop table_name fe fo rids count st = (inr n, st') ->
  sent st' = sent st ++ map went_through (planned_updates table_name fe fo rids) ∧
  n = (count + length (planned_updates table_name fe fo rids))%nat.
Proof.
  revert count st. induction rids as [|rid rids IH]; intros count st;
    cbn [update_loop planned_updates flat_map].
  - intros [= <- <-]. cbn. by rewrite app_nil_r, Nat.add_0_r.
  - unfold mbind, M_bind, bind, lift.
    destruct (loc rid fe) as [e|row_new]; cbn; [done|].
    destruct (loc rid fo) as [e|row_orig]; cbn; [done|].
    destruct (series_equals row_new row_orig); cbn; [apply IH|].
    unfold execute. destruct (db_execute _ _) as [msg|d]; cbn; [done|].
    intros [Hs ->]%IH. fold (planned_updates table_name fe fo rids).
    cbn in Hs. rewrite Hs, <- app_assoc. cbn. split; [done|lia].
Qed.

(** A run of the three phases that ends without exception sent exactly the
    planned statements and counted them. *)
Lemma reconcile_done table_name O E st counts st' :
  reconcile table_name O E st = (inr counts, st') ->
  ∃ orig cur new_rows fe fo,
    get_ids O = inr orig ∧ get_ids E = inr cur ∧
    rows_where "rowid" isna E = inr new_rows ∧
    existing_rows (common_ids orig cur) E = inr fe ∧
    existing_rows (common_ids orig cur) O = inr fo ∧
    sent st' = sent st ++ map went_through (planned table_name orig cur new_rows fe fo) ∧
    counts = (length (data new_rows), size (deleted_ids orig cur),
              length (planned_updates table_name fe fo
                        (set_order (common_ids orig cur)))).
Proof.
  unfold reconcile, mbind, M_bind, bind, lift.
  destruct (get_ids O) as [e|orig] eqn:HO; cbn; [done|].
  destruct (get_ids E) as [e|cur] eqn:HE; cbn; [done|].
  destruct (handle_deletions _ _ st) as [[e|[]] st1] eqn:Hdel; [done|].
  destruct (rows_where "rowid" isna E) as [e|new_rows] eqn:Hnew; cbn; [done|].
  destruct (handle_additions _ _ st1) as [[e|[]] st2] eqn:Hadd; [done|].
  destruct (existing_rows _ E) as [e|fe] eqn:Hfe; cbn; [done|].
  destruct (existing_rows _ O) as [e|fo] eqn:Hfo; cbn; [done|].
  destruct (update_loop _ _ _ _ _ st2) as [[e|n] st3] eqn:Hloop; cbn; [done|].
  intros [= <- <-]. apply update_loop_done in Hloop as [Hs3 ->].
  exists orig, cur, new_rows, fe, fo. repeat split; try done.
  rewrite Hs3. unfold planned. rewrite !map_app, !app_assoc. f_equal.
  unfold handle_deletions, handle_additions, execute in *.
  case_bool_decide; destruct (frame_empty new_rows); cbn [negb] in *;
    repeat match goal with
    | H : context [db_execute ?s ?d] |- _ =>
        destruct (db_execute s d); cbn in H; [done|]
    | H : (_, _) = (_, _) |- _ => injection H as <-
    | H : ret _ _ = _ |- _ => unfold ret in H
    end; cbn; by rewrite ?app_nil_r, <- ?app_assoc.
Qed.

(** *** Shape of the statements *)

Lemma drop_label_spec lbl c cols : c ∈ drop_label lbl cols <-> c ∈ cols ∧ c ≠ lbl.
Proof.
  unfold drop_label. rewrite !list_elem_of_In, filter_In, negb_true_iff,
    bool_decide_eq_false. tauto.
Qed.

Lemma rows_where_inv lbl p df f :
  rows_where lbl p df = inr f ->
  ∃ i, label_pos lbl (columns df) = Some i ∧ columns f = columns df ∧
       data f = List.filter (fun r => p (cell i r)) (data df).
Proof.
  unfold rows_where. destruct (label_pos lbl (columns df)) as [i|]; [|done].
  intros [= <-]. by exists i.
Qed.

Lemma existing_rows_columns ids df f :
  existing_rows ids df = inr f -> i_columns f = drop_label "rowid" (columns df).
Proof.
  unfold existing_rows.
  destruct (rows_where "rowid" (isin ids) df) as [e|g] eqn:Hg; [done|].
  apply rows_where_inv in Hg as (i & _ & Hcols & _).
  unfold set_index. destruct (label_pos "rowid" (columns g)); [|done].
  intros [= <-]. cbn. by rewrite Hcols.
Qed.

Lemma loc_index rid f row : loc rid f = inr row -> s_index row = i_columns f.
Proof.
  unfold loc. destruct (find _ _); [|done]. by intros [= <-].
Qed.

Lemma dict_set_keys k v d k' :
  k' ∈ map fst (dict_set k v d) -> k' = k ∨ k' ∈ map fst d.
Proof.
  induction d as [|[k0 v0] d IH]; cbn.
  - intros ->%list_elem_of_singleton. by left.
  - destruct (decide (k0 = k)) as [->|_]; cbn; rewrite !elem_of_cons; [tauto|].
    intros [->|Hin]; [tauto|]. destruct (IH Hin); tauto.
Qed.

Lemma to_dict_keys row k : k ∈ map fst (to_dict row) -> k ∈ s_index row.
Proof.
  unfold to_dict.
  assert (Hgen : ∀ kvs d, k ∈ map fst (fold_left
                   (fun d kv => dict_set kv.1 kv.2 d) kvs d) ->
                 k ∈ map fst d ∨ k ∈ map fst kvs).
  { induction kvs as [|[k0 v0] kvs IH]; intros d; cbn; [by left|].
    intros [Hin|Hin]%IH; [|right; by right].
    apply dict_set_keys in Hin as [->|Hin]; [right; by left|by left]. }
  intros [Hin|Hin]%Hgen; [by apply elem_of_nil in Hin|].
  revert Hin. generalize (s_values row).
  induction (s_index row) as [|c cols IH]; intros [|v vs]; cbn;
    try (by intros ?%elem_of_nil).
  rewrite !elem_of_cons. intros [->|Hin]; [by left|right; eauto].
Qed.

Lemma update_step_sets raw acc :
  map fst (fold_left update_step raw acc).2 = map fst acc.2 ++ map fst raw.
Proof.
  revert acc. induction raw as [|[col val] raw IH]; intros [m sets]; cbn.
  - by rewrite app_nil_r.
  - rewrite IH. cbn. by rewrite map_app, <- app_assoc.
Qed.

(** The statement built for a row: an UPDATE of the table whose SET clause
    names the keys of the row's dictionary and whose [rowid] parameter is the
    identifier of the row. *)
Lemma update_stmt_shape table_name rid row :
  ∃ sets params,
    update_stmt table_name rid row = Update table_name sets params ∧
    map fst sets = map fst (to_dict row) ∧
    params !! "rowid" = Some (VInt rid).
Proof.
  unfold update_stmt.
  pose proof (update_step_sets (to_dict row) (∅, [])) as Hsets.
  destruct (fold_left update_step (to_dict row) (∅, [])) as [m sets].
  exists sets, (<["rowid" := VInt rid]> m). by rewrite lookup_insert_eq.
Qed.

(** The statement built for a row of the update phase names no [rowid]
    column in its SET clause, only payload columns of the edited snapshot. *)
Lemma update_stmt_free table_name ids E fe rid row :
  existing_rows ids E = inr fe -> loc rid fe = inr row ->
  ∃ sets params,
    update_stmt table_name rid row = Update table_name sets params ∧
    ("rowid" ∉ map fst sets) ∧
    (∀ c, c ∈ map fst sets -> c ∈ columns E) ∧
    params !! "rowid" = Some (VInt rid).
Proof.
  intros Hfe Hrow.
  destruct (update_stmt_shape table_name rid row) as (sets & params & Heq & Hsets & Hrid).
  exists sets, params.
  assert (Hcols : ∀ c, c ∈ map fst sets -> c ∈ columns E ∧ c ≠ "rowid").
  { intros c Hc. rewrite Hsets in Hc. apply to_dict_keys in Hc.
    rewrite (loc_index _ _ _ Hrow), (existing_rows_columns _ _ _ Hfe) in Hc.
    by apply drop_label_spec. }
  repeat split; try done.
  - intros Hc. by destruct (Hcols _ Hc) as [_ ?].
  - intros c Hc. by apply Hcols.
Qed.

End Facts.

Section Runs.
Context {host : Host}.

Lemma new_rows_data E new_rows :
  rows_where "rowid" isna E = inr new_rows ->
  columns new_rows = columns E ∧
  data new_rows = List.filter (fun row => isna (rowid_of E row)) (data E).
Proof.
  intros (i & Hpos & Hcols & Hdata)%rows_where_inv. split; [done|].
  rewrite Hdata. unfold rowid_of. by rewrite Hpos.
Qed.

(** What a committed run leaves in the log. *)
Lemma committed_log table_name O E st :
  (save_changes table_name O E st).1 = Commit ->
  ∃ orig cur new_rows fe fo,
    get_ids O = inr orig ∧ get_ids E = inr cur ∧
    rows_where "rowid" isna E = inr new_rows ∧
    existing_rows (common_ids orig cur) E = inr fe ∧
    existing_rows (common_ids orig cur) O = inr fo ∧
    sent (save_changes table_name O E st).2
    = map went_through (planned table_name orig cur new_rows fe fo) ∧
    session_state (save_changes table_name O E st).2 !! "success_message"
    = Some (SStr (success_text (length (data new_rows))
                    (size (deleted_ids orig cur))
                    (length (planned_updates table_name fe fo
                               (set_order (common_ids orig cur)))))).
Proof.
  rewrite save_changes_unfold. destruct (has_column "rowid" O); [|done].
  destruct (reconcile table_name O E (begin st)) as [[e|counts] st1] eqn:Hrun;
    [done|]. intros _.
  apply reconcile_done in Hrun
    as (orig & cur & new_rows & fe & fo & ? & ? & ? & ? & ? & Hsent & ->).
  exists orig, cur, new_rows, fe, fo. repeat split; try done.
  cbn. rewrite lookup_insert_ne; [by rewrite lookup_insert_eq|].
  unfold trigger_key. done.
Qed.

(** The database of a committed run: the statements of the log, run on the
    database from before the call. *)
Lemma committed_replay table_name O E st :
  (save_changes table_name O E st).1 = Commit ->
  replay (sent (save_changes table_name O E st).2) (committed st)
  = Some (committed (save_changes table_name O E st).2).
Proof.
  rewrite save_changes_unfold. destruct (has_column "rowid" O); [|done].
  destruct (txn_reconcile table_name O E (begin st))
    as (_ & _ & _ & new & Hsent & _ & _ & Hreplay).
  destruct (reconcile table_name O E (begin st)) as [[e|counts] st1]; [done|].
  intros _. cbn in *. by rewrite Hsent.
Qed.

Lemma null_rows_spec E row :
  row ∈ null_rows E <-> row ∈ data E ∧ rowid_of E row = VNull.
Proof.
  unfold null_rows. rewrite !list_elem_of_In, filter_In.
  destruct (rowid_of E row); cbn; split; intros [? ?]; by split.
Qed.

(** The INSERT of a committed run: between the DELETE, if any, and the
    UPDATE statements it was executed on the transaction, and the database
    committed is what the statements after it made of its result. *)
Lemma committed_insert table_name O E st :
  (save_changes table_name O E st).1 = Commit ->
  null_rows E ≠ [] ->
  ∃ orig cur post d1 d2,
    get_ids O = inr orig ∧ get_ids E = inr cur ∧
    sent (save_changes table_name O E st).2
    = deletion table_name orig cur ++ (insert_of table_name E, None) :: post ∧
    Forall (fun e => ∃ sets params rid,
              e = (Update table_name sets params, None) ∧
              ("rowid" ∉ map fst sets) ∧
              params !! "rowid" = Some (VInt rid) ∧
              rid ∈ common_ids orig cur) post ∧
    replay (deletion table_name orig cur) (committed st) = Some d1 ∧
    db_execute (insert_of table_name E) d1 = inr d2 ∧
    replay post d2 = Some (committed (save_changes table_name O E st).2).
Proof.
  intros Hcommit Hrows.
  pose proof (committed_replay _ _ _ _ Hcommit) as Hreplay.
  destruct (committed_log _ _ _ _ Hcommit)
    as (orig & cur & new_rows & fe & fo & HO & HE & Hnew & Hfe & _ & Hsent & _).
  rewrite Hsent in Hreplay |- *. clear Hsent.
  pose proof Hnew as (i & Hpos & _)%rows_where_inv.
  apply new_rows_data in Hnew as [Hcols Hdata].
  assert (Hempty : frame_empty new_rows = false).
  { unfold frame_empty. rewrite Hcols, Hdata. fold (null_rows E).
    destruct (columns E); [done|]. by destruct (null_rows E). }
  assert (Hins : Insert table_name (columns (drop_columns "rowid" new_rows))
                        (data (drop_columns "rowid" new_rows))
                 = insert_of table_name E).
  { unfold insert_of, null_rows, drop_columns. cbn. by rewrite Hcols, Hdata. }
  assert (Hdel : map went_through
                   (if bool_decide (deleted_ids orig cur ≠ ∅)
                    then [Delete table_name (set_order (deleted_ids orig cur))]
                    else [])
                 = deletion table_name orig cur).
  { unfold deletion. by case_bool_decide. }
  unfold planned in *. rewrite Hempty, Hins in *. rewrite !map_app, Hdel in *.
  cbn [map app went_through] in *.
  rewrite replay_app in Hreplay.
  destruct (replay (deletion table_name orig cur) (committed st)) as [d1|]
    eqn:Hpre; [|done].
  cbn in Hreplay.
  destruct (db_execute (insert_of table_name E) d1) as [msg|d2] eqn:Hrun;
    [done|].
  eexists orig, cur, _, d1, d2. split; [done|]. split; [done|].
  split; [reflexivity|]. repeat split; try done.
  apply Forall_forall. intros e. rewrite list_elem_of_In, in_map_iff.
  intros (s & <- & Hs). unfold planned_updates in Hs.
  apply in_flat_map in Hs as (rid & Hrid & Hs).
  destruct (loc rid fe) as [?|row_new] eqn:Hrow; [done|].
  destruct (loc rid fo) as [?|row_orig]; [done|].
  destruct (series_equals row_new row_orig); [done|].
  destruct Hs as [<-|[]].
  destruct (update_stmt_free table_name _ _ _ _ _ Hfe Hrow)
    as (sets & params & Heq & Hfree & _ & Hparam).
  exists sets, params, rid. unfold went_through. rewrite Heq.
  repeat split; try done. by apply in_set_order, list_elem_of_In.
Qed.

(** A run that did not commit left the database as it was. *)
Lemma uncommitted_unchanged table_name O E st :
  (save_changes table_name O E st).1 ≠ Commit ->
  committed (save_changes table_name O E st).2 = committed st.
Proof.
  rewrite save_changes_unfold. destruct (has_column "rowid" O); [|done].
  destruct (txn_reconcile table_name O E (begin st)) as (Hc & _).
  by destruct (reconcile table_name O E (begin st)) as [[e|counts] st1].
Qed.




(** *** Runs that have nothing to do *)

Lemma filter_none {A} (f : A -> bool) (l : list A) :
  (∀ x, x ∈ l -> f x = false) -> List.filter f l = [].
Proof.
  induction l as [|x l IH]; [done|]. intros Hall. cbn.
  rewrite (Hall x) by (by left). apply IH. intros y Hy. apply Hall. by right.
Qed.

Lemma label_pos_elem lbl cols i : label_pos lbl cols = Some i -> lbl ∈ cols.
Proof.
  revert i. induction cols as [|c cols IH]; intros i; cbn; [done|].
  destruct (decide (c = lbl)) as [->|_]; [by left|].
  destruct (label_pos lbl cols) as [j|]; [|done]. intros _. right. by eapply IH.
Qed.

Lemma get_ids_pos df ids :
  get_ids df = inr ids -> ∃ i, label_pos "rowid" (columns df) = Some i.
Proof.
  unfold get_ids, getitem.
  destruct (label_pos "rowid" (columns df)) as [i|]; [by exists i|done].
Qed.

Lemma existing_rows_ok ids df i :
  label_pos "rowid" (columns df) = Some i ->
  ∃ f, existing_rows ids df = inr f.
Proof.
  intros Hpos. unfold existing_rows, rows_where, set_index. rewrite Hpos. cbn.
  rewrite Hpos. by eexists.
Qed.

Lemma update_loop_quiet table_name fe fo rids count st :
  (∀ rid, rid ∈ rids -> ∃ row, loc rid fe = inr row ∧ loc rid fo = inr row) ->
  update_loop table_name fe fo rids count st = (inr count, st).
Proof.
  induction rids as [|rid rids IH]; intros Hsame; cbn [update_loop]; [done|].
  destruct (Hsame rid) as (row & Hn & Ho); [by left|].
  unfold mbind, M_bind, bind. rewrite Hn, Ho. cbn.
  unfold series_equals. rewrite bool_decide_true by done. cbn.
  apply IH. intros r Hr. apply Hsame. by right.
Qed.

(** *** Rows with a foreign identifier *)







End Runs.

(** *** The reference store under an UPDATE *)

Lemma store_assign_failed params sets msg :
  fold_left (Store.assign params) sets (inl msg) = inl msg.
Proof. by induction sets. Qed.

Lemma store_assign_rowid params sets rid payload rid' payload' :
  "rowid" ∉ map fst sets ->
  fold_left (Store.assign params) sets (inr (rid, payload)) = inr (rid', payload') ->
  rid' = rid.
Proof.
  revert payload. induction sets as [|[col key] sets IH]; intros payload Hnot; cbn.
  - by intros [= <- _].
  - apply not_elem_of_cons in Hnot as [Hcol Hnot]. cbn in Hcol.
    destruct (params !! key) as [v|]; [|by rewrite store_assign_failed].
    destruct (decide (col = "rowid")); [done|]. by apply IH.
Qed.

Lemma store_update_rows_rowids name t target sets params rs rs' :
  "rowid" ∉ map fst sets ->
  Store.update_rows name t target sets params rs = inr rs' ->
  map fst rs' = map fst rs.
Proof.
  intros Hnot. revert rs'.
  induction rs as [|[rid payload] rs IH]; intros rs'; cbn.
  - by intros [= <-].
  - case_bool_decide.
    + destruct (fold_left _ _ _) as [msg|[rid' payload']] eqn:Hset; [done|].
      apply store_assign_rowid in Hset as ->; [|done].
      destruct (Store.violated t payload'); [done|].
      destruct (Store.update_rows _ _ _ _ _ rs) as [msg|rs'']; [done|].
      intros [= <-]. cbn. by rewrite (IH rs'').
    + destruct (Store.update_rows _ _ _ _ _ rs) as [msg|rs'']; [done|].
      intros [= <-]. cbn. by rewrite (IH rs'').
Qed.

Lemma store_update_rowids tbl sets params (d d' : Store.db) name :
  "rowid" ∉ map fst sets ->
  Store.run (Update tbl sets params) d = inr d' ->
  Store.rowids <$> (d' !! name) = Store.rowids <$> (d !! name).
Proof.
  intros Hnot. unfold Store.run.
  destruct (d !! tbl) as [t|] eqn:Ht; [|done].
  destruct (params !! "rowid") as [target|]; [|done].
  destruct (Store.update_rows _ _ _ _ _ _) as [msg|rs] eqn:Hrs; [done|].
  intros [= <-]. apply store_update_rows_rowids in Hrs; [|done].
  destruct (decide (tbl = name)) as [->|Hne].
  - rewrite lookup_insert_eq, Ht. cbn. unfold Store.rowids. cbn. by rewrite Hrs.
  - by rewrite lookup_insert_ne.
Qed.

(** ** Properties of [save_changes] *)

(** *** The reference store under a whole save *)

Lemma store_insert_rows_rowids name cols new t t' :
  Store.insert_rows name cols new t = inr t' ->
  ∃ added, Store.rowids t' = Store.rowids t ++ added.
Proof.
  revert t. induction new as [|r new IH]; intros t; cbn.
  - intros [= <-]. exists []. by rewrite app_nil_r.
  - destruct (Store.violated t (combine cols r)); [done|].
    intros (added & ->)%IH. unfold Store.rowids. cbn.
    rewrite map_app, <- app_assoc. by eexists.
Qed.

Lemma store_updates_rowids (log : list (stmt * option string)) (d d' : Store.db) name :
  Forall (fun e => ∃ tbl sets params,
            e.1 = Update tbl sets params ∧ "rowid" ∉ map fst sets) log ->
  replay (host := Store.host) log d = Some d' ->
  Store.rowids <$> (d' !! name) = Store.rowids <$> (d !! name).
Proof.
  intros Hall. revert d. induction Hall as [|[s r] log (tbl & sets & params & Hs & Hfree) _ IH];
    intros d; cbn.
  - by intros [= <-].
  - cbn in Hs. subst s. destruct r as [msg|]; [apply IH|].
    destruct (Store.run _ d) as [msg|d1] eqn:Hrun; [done|].
    intros ->%IH. by eapply store_update_rowids.
Qed.

Lemma store_max_rowid (l : list Z) z :
  z ∈ l -> (z ≤ fold_right Z.max 0 l)%Z.
Proof.
  induction l as [|x l IH]; [by intros ?%elem_of_nil|].
  intros [->|Hin%IH]%elem_of_cons; cbn; lia.
Qed.

Lemma store_next_rowid_new t : Store.next_rowid t ∉ Store.rowids t.
Proof.
  intros Hin%store_max_rowid. unfold Store.next_rowid in Hin. lia.
Qed.

(** What an INSERT does to a table of the reference store. *)
Lemma store_insert_rows_spec name cols new t t' :
  Store.insert_rows name cols new t = inr t' ->
  ∃ ids, Store.appended t t' ids (map (combine cols) new).
Proof.
  revert t. induction new as [|r new IH]; intros t; cbn.
  - intros [= <-]. exists []. unfold Store.appended. cbn.
    rewrite app_nil_r. repeat split; try done; [constructor|].
    by intros i ?%elem_of_nil.
  - destruct (Store.violated t (combine cols r)); [done|].
    intros (ids & Hnn & Hrows & Hlen & Hnd & Hnew)%IH. cbn in *.
    exists (Store.next_rowid t :: ids). unfold Store.appended. cbn.
    rewrite Hrows, <- app_assoc. repeat split; try done.
    + by rewrite Hlen.
    + apply NoDup_cons. split; [|done]. intros Hin%Hnew. apply Hin.
      unfold Store.rowids. cbn. rewrite map_app. apply elem_of_app. right.
      by left.
    + intros i [->|Hin%Hnew]%elem_of_cons; [apply store_next_rowid_new|].
      intros Hold. apply Hin. unfold Store.rowids in *. cbn.
      rewrite map_app. apply elem_of_app. by left.
Qed.

Lemma store_run_insert tbl cols new (d d' : Store.db) :
  Store.run (Insert tbl cols new) d = inr d' ->
  ∃ t t' ids, d !! tbl = Some t ∧ d' = <[tbl := t']> d ∧
              Store.appended t t' ids (map (combine cols) new).
Proof.
  unfold Store.run. destruct (d !! tbl) as [t|]; [|done].
  destruct (Store.insert_rows tbl cols new t) as [msg|t'] eqn:Hins; [done|].
  intros [= <-]. apply store_insert_rows_spec in Hins as [ids Hids].
  by exists t, t', ids.
Qed.

(** The deletion phase on the reference store: the rows named are gone, the
    others stay in place. *)
Lemma store_deletion_rows table_name orig cur (d d1 : Store.db) t :
  replay (host := Store.host) (deletion table_name orig cur) d = Some d1 ->
  d !! table_name = Some t ->
  ∃ t1, d1 !! table_name = Some t1 ∧
        Store.rows t1
        = List.filter (fun r => negb (bool_decide (r.1 ∈ deleted_ids orig cur)))
                      (Store.rows t).
Proof.
  unfold deletion. intros Hrun Ht. case_bool_decide as Hdel; cbn in Hrun.
  - unfold Store.run in Hrun. rewrite Ht in Hrun. injection Hrun as <-.
    eexists. split; [apply lookup_insert_eq|]. cbn.
    induction (Store.rows t) as [|[rid payload] rs IH]; [done|]. cbn.
    rewrite (bool_decide_ext (rid ∈ elements (deleted_ids orig cur))
               (rid ∈ deleted_ids orig cur)) by apply elem_of_elements.
    destruct (bool_decide (rid ∈ deleted_ids orig cur)); cbn; by rewrite IH.
  - injection Hrun as <-. exists t. split; [done|].
    rewrite Hdel. symmetry.
    induction (Store.rows t) as [|r rs IH]; [done|]. cbn.
    rewrite bool_decide_false by apply not_elem_of_empty. cbn. by rewrite IH.
Qed.

(** An UPDATE of the reference store leaves alone the rows it is not
    addressed to. *)
Lemma store_update_rows_keep name t target sets params rs rs' e :
  Store.update_rows name t target sets params rs = inr rs' ->
  e ∈ rs -> target ≠ VInt e.1 -> e ∈ rs'.
Proof.
  revert rs'. induction rs as [|[rid payload] rs IH]; intros rs'; cbn.
  - by intros _ ?%elem_of_nil.
  - case_bool_decide as Htarget.
    + destruct (fold_left _ _ _) as [msg|[rid' payload']]; [done|].
      destruct (Store.violated t payload'); [done|].
      destruct (Store.update_rows _ _ _ _ _ rs) as [msg|rs'']; [done|].
      intros [= <-] [->|Hin]%elem_of_cons Hne; [done|].
      right. by apply IH.
    + destruct (Store.update_rows _ _ _ _ _ rs) as [msg|rs'']; [done|].
      intros [= <-] [->|Hin]%elem_of_cons Hne; [by left|].
      right. by apply IH.
Qed.

Lemma store_updates_keep (P : Z -> Prop) (log : list (stmt * option string))
    (d d' : Store.db) name t :
  Forall (fun e => ∃ tbl sets params rid,
            e = (Update tbl sets params, None) ∧
            params !! "rowid" = Some (VInt rid) ∧ P rid) log ->
  replay (host := Store.host) log d = Some d' ->
  d !! name = Some t ->
  ∃ t', d' !! name = Some t' ∧
        ∀ e, e ∈ Store.rows t -> ¬ P e.1 -> e ∈ Store.rows t'.
Proof.
  intros Hall. revert d t.
  induction Hall as [|e log (tbl & sets & params & rid & -> & Hrid & HP) _ IH];
    intros d t; cbn.
  - intros [= <-] Ht. by exists t.
  - destruct (Store.run (Update tbl sets params) d) as [msg|d1] eqn:Hrun;
      [done|].
    intros Hrest Ht. unfold Store.run in Hrun.
    destruct (d !! tbl) as [t0|] eqn:Ht0; [|done]. rewrite Hrid in Hrun.
    destruct (Store.update_rows _ _ _ _ _ _) as [msg|rs] eqn:Hrs; [done|].
    injection Hrun as <-.
    destruct (decide (tbl = name)) as [->|Hne].
    + rewrite Ht in Ht0. injection Ht0 as <-.
      destruct (IH _ (Store.mkTable (Store.not_null t) rs) Hrest)
        as (t' & Ht' & Hkeep); [apply lookup_insert_eq|].
      exists t'. split; [done|]. intros e He HnP. apply Hkeep; [|done]. cbn.
      eapply store_update_rows_keep; [exact Hrs|done|].
      intros [= Heq]. apply HnP. by rewrite <- Heq.
    + apply (IH _ t Hrest). by rewrite lookup_insert_ne.
Qed.

(** A committed save with new rows on the reference store, when the table
    holds the rows of the original snapshot: the INSERT finds the table
    without the deleted rows and appends the new rows under identifiers of
    the engine's choice; the table that is committed holds the same
    identifiers, and the new rows as they were appended. *)
Lemma store_save_new_rows table_name O E (d : Store.db) t orig :
  (save_changes (host := Store.host) table_name O E (Store.fresh d)).1 = Commit ->
  d !! table_name = Some t ->
  null_rows E ≠ [] ->
  get_ids (host := Store.host) O = inr orig ->
  (∀ rid, rid ∈ orig -> rid ∈ Store.rowids t) ->
  ∃ cur t1 t2 ids t',
    get_ids (host := Store.host) E = inr cur ∧
    Store.rows t1
    = List.filter (fun r => negb (bool_decide (r.1 ∈ deleted_ids orig cur)))
                  (Store.rows t) ∧
    Store.appended t1 t2 ids
      (map (combine (drop_label "rowid" (columns E)))
           (map (drop_cells "rowid" (columns E)) (null_rows E))) ∧
    committed (save_changes (host := Store.host) table_name O E (Store.fresh d)).2
      !! table_name = Some t' ∧
    Store.rowids t' = Store.rowids t2 ∧
    (∀ e, e ∈ combine ids
                (map (combine (drop_label "rowid" (columns E)))
                     (map (drop_cells "rowid" (columns E)) (null_rows E))) ->
          e ∈ Store.rows t').
Proof.
  intros Hcommit Ht Hrows HO Hheld.
  destruct (committed_insert (host := Store.host) _ _ _ _ Hcommit Hrows)
    as (orig' & cur & post & d1 & d2 & HO' & HE & _ & Hpost & Hd1 & Hd2 & Hfinal).
  rewrite HO in HO'. injection HO' as <-.
  cbn [Store.fresh committed] in Hd1.
  destruct (store_deletion_rows _ _ _ _ _ _ Hd1 Ht) as (t1 & Ht1 & Hrows1).
  apply store_run_insert in Hd2 as (t1' & t2 & ids & Ht1' & -> & Happ).
  change (@DB Store.host) with Store.db in *.
  rewrite Ht1 in Ht1'. injection Ht1' as <-.
  pose proof Hfinal as Hids.
  apply (store_updates_rowids _ _ _ table_name) in Hids.
  2:{ eapply Forall_impl; [exact Hpost|].
      intros e (sets & params & rid & -> & Hfree & _).
      by exists table_name, sets, params. }
  change (@DB Store.host) with Store.db in *.
  rewrite lookup_insert_eq in Hids.
  apply fmap_Some in Hids as (t' & Ht' & Hids).
  assert (Hupd : Forall (fun e => ∃ tbl sets params rid,
                   e = (Update tbl sets params, None) ∧
                   params !! "rowid" = Some (VInt rid) ∧
                   rid ∈ common_ids orig cur) post).
  { eapply Forall_impl; [exact Hpost|].
    intros e (sets & params & rid & -> & _ & ? & ?).
    by exists table_name, sets, params, rid. }
  destruct (store_updates_keep (fun rid => rid ∈ common_ids orig cur)
              _ _ _ table_name t2 Hupd Hfinal)
    as (t'' & Ht'' & Hkeep); [apply lookup_insert_eq|].
  change (@DB Store.host) with Store.db in *.
  rewrite Ht' in Ht''. injection Ht'' as <-.
  exists cur, t1, t2, ids, t'.
  split; [done|]. split; [done|]. split; [exact Happ|].
  split; [done|]. split; [done|].
  intros e He. destruct Happ as (_ & Hrows2 & _ & _ & Hnew).
  apply Hkeep.
  - rewrite Hrows2. apply elem_of_app. by right.
  - intros [Horig Hcur]%elem_of_intersection.
    apply (Hnew e.1).
    + destruct e as [i payload]. apply list_elem_of_In in He.
      apply in_combine_l in He. by apply list_elem_of_In.
    + unfold Store.rowids. rewrite Hrows1.
      apply Hheld, list_elem_of_In, in_map_iff in Horig
        as ([i payload] & Hi & Hin).
      apply list_elem_of_In, in_map_iff. exists (i, payload).
      split; [done|]. apply filter_In. split; [done|]. cbn in *. subst i.
      rewrite bool_decide_false; [done|].
      unfold deleted_ids. rewrite elem_of_difference. tauto.
Qed.

(** A committed save on the reference store: the rows that were not deleted
    keep their identifiers and their order, new rows come after them. *)
Lemma store_save_rowids table_name O E (d : Store.db) orig cur t :
  (save_changes (host := Store.host) table_name O E (Store.fresh d)).1 = Commit ->
  get_ids (host := Store.host) O = inr orig ->
  get_ids (host := Store.host) E = inr cur ->
  d !! table_name = Some t ->
  ∃ t' added,
    committed (save_changes (host := Store.host) table_name O E (Store.fresh d)).2
      !! table_name = Some t' ∧
    Store.rowids t'
    = List.filter (fun rid => negb (bool_decide (rid ∈ deleted_ids orig cur)))
                  (Store.rowids t) ++ added.
Proof.
  intros Hcommit HO HE Ht.
  pose proof (committed_replay _ _ _ _ Hcommit) as Hreplay.
  destruct (committed_log _ _ _ _ Hcommit)
    as (orig' & cur' & new_rows & fe & fo & HO' & HE' & _ & Hfe & _ & Hsent & _).
  rewrite HO in HO'. rewrite HE in HE'. injection HO' as <-. injection HE' as <-.
  rewrite Hsent in Hreplay. clear Hsent Hcommit.
  cbn [Store.fresh committed] in Hreplay.
  set (final := committed (save_changes table_name O E (Store.fresh d)).2) in *.
  clearbody final.
  unfold planned in Hreplay. rewrite !map_app, replay_app in Hreplay.
  (* deletions *)
  assert (∃ (d1 : Store.db) t1, replay (host := Store.host)
            (map went_through
               (if bool_decide (deleted_ids orig cur ≠ ∅)
                then [Delete table_name (set_order (deleted_ids orig cur))]
                else [])) d = Some d1 ∧
          d1 !! table_name = Some t1 ∧
          Store.rowids t1
          = List.filter (fun rid => negb (bool_decide (rid ∈ deleted_ids orig cur)))
                        (Store.rowids t)) as (d1 & t1 & Hd1 & Ht1 & Hids1).
  { case_bool_decide as Hdel; cbn.
    - unfold Store.run. rewrite Ht. eexists _, _. split; [done|].
      rewrite lookup_insert_eq. split; [done|]. unfold Store.rowids. cbn.
      induction (Store.rows t) as [|[rid payload] rs IH]; [done|]. cbn.
      rewrite (bool_decide_ext (rid ∈ elements (deleted_ids orig cur))
                 (rid ∈ deleted_ids orig cur)) by apply elem_of_elements.
      destruct (bool_decide (rid ∈ deleted_ids orig cur)); cbn; by rewrite IH.
    - exists d, t. repeat split; try done.
      rewrite Hdel. symmetry.
      induction (Store.rowids t) as [|rid rs IH]; [done|]. cbn.
      rewrite bool_decide_false by apply not_elem_of_empty. cbn. by rewrite IH. }
  rewrite Hd1 in Hreplay. cbn [mbind option_bind] in Hreplay.
  rewrite replay_app in Hreplay.
  (* additions *)
  assert (∃ (d2 : Store.db) t2 added, replay (host := Store.host)
            (map went_through
               (if frame_empty new_rows then []
                else [Insert table_name (columns (drop_columns "rowid" new_rows))
                             (data (drop_columns "rowid" new_rows))])) d1
          = Some d2 ∧
          d2 !! table_name = Some t2 ∧
          Store.rowids t2 = Store.rowids t1 ++ added) as (d2 & t2 & added & Hd2 & Ht2 & Hids2).
  { destruct (frame_empty new_rows); cbn.
    - exists d1, t1, []. repeat split; try done. symmetry. apply app_nil_r.
    - cbn in Hreplay. unfold Store.run in *.
      change (@DB Store.host) with Store.db in *. rewrite Ht1 in *.
      destruct (Store.insert_rows _ _ _ t1) as [msg|t2] eqn:Hins; [done|].
      apply store_insert_rows_rowids in Hins as [added Hadded].
      exists (<[table_name := t2]> d1), t2, added.
      by rewrite lookup_insert_eq. }
  rewrite Hd2 in Hreplay. cbn [mbind option_bind] in Hreplay.
  (* updates *)
  apply (store_updates_rowids _ _ _ table_name) in Hreplay.
  - change (@DB Store.host) with Store.db in *. rewrite Ht2 in Hreplay.
    destruct (final !! table_name) as [t'|]; [|done].
    injection Hreplay as Hids. exists t', added. split; [done|].
    by rewrite Hids, Hids2, Hids1.
  - apply Forall_forall. intros e. rewrite list_elem_of_In, in_map_iff.
    intros (s & <- & Hs). unfold planned_updates in Hs.
    apply in_flat_map in Hs as (rid & _ & Hs).
    destruct (loc rid fe) as [?|row_new] eqn:Hrow; [done|].
    destruct (loc rid fo) as [?|row_orig]; [done|].
    destruct (series_equals row_new row_orig); [done|].
    destruct Hs as [<-|[]].
    destruct (update_stmt_free table_name _ _ _ _ _ Hfe Hrow)
      as (sets & params & Heq & Hfree & _).
    by exists table_name, sets, params.
Qed.

Section Properties.
Context {host : Host}.


(** C7. When a statement fails inside [save_changes], the message left for
    the caller carries the driver's message as it is, whole and unchanged,
    after the fixed label of line 250. *)
Theorem failure_message_kept table_name O E st s msg :
  (s, Some msg) ∈ sent (save_changes table_name O E st).2 ->
  session_state (save_changes table_name O E st).2 !! "error_message"
  = Some (SStr ("Error saving changes: " +:+ msg)).
Proof.
  intros (st1 & -> & _)%failed_statement. cbn. by rewrite lookup_insert_eq.
Qed.

(** C3. The identifiers to delete and the identifiers to compare are
    disjoint, and together they are the identifiers of the original
    snapshot. *)
Theorem deleted_common_partition O E orig cur :
  get_ids O = inr orig -> get_ids E = inr cur ->
  deleted_ids orig cur ## common_ids orig cur ∧
  deleted_ids orig cur ∪ common_ids orig cur = orig.
Proof.
  intros _ _. unfold deleted_ids, common_ids. split.
  - intros x [_ Hout]%elem_of_difference [_ Hin]%elem_of_intersection.
    by apply Hout.
  - apply set_eq. intros x.
    rewrite elem_of_union, elem_of_difference, elem_of_intersection.
    destruct (decide (x ∈ cur)); tauto.
Qed.

(** C6. When either snapshot lacks the [rowid] column, [save_changes] sends
    no statement and leaves the database as it was; the call is turned down
    by the message of line 166 or by the error message of line 250. *)
Theorem missing_rowid_rejected table_name O E st :
  "rowid" ∉ columns O ∨ "rowid" ∉ columns E ->
  sent (save_changes table_name O E st).2 = [] ∧
  committed (save_changes table_name O E st).2 = committed st ∧
  working (save_changes table_name O E st).2 = committed st ∧
  (((save_changes table_name O E st).1 = Reject ∧
    shown (save_changes table_name O E st).2
    = shown st ++ ["Cannot save changes: 'rowid' column missing."]) ∨
   (∃ e, (save_changes table_name O E st).1 = Abort (PyExn e) ∧
         session_state (save_changes table_name O E st).2 !! "error_message"
         = Some (SStr ("Error saving changes: " +:+ str_exn (PyExn e))))).
Proof.
  intros Hmiss. rewrite save_changes_unfold. unfold has_column.
  case_bool_decide as HO; [|cbn; repeat split; by left].
  destruct Hmiss as [?|HE]; [done|].
  assert (∃ e, reconcile table_name O E (begin st)
               = (inl (PyExn e), begin st)) as [e ->].
  { unfold reconcile, mbind, M_bind, bind.
    destruct (get_ids O) as [e|orig]; cbn; [by exists e|].
    unfold get_ids, getitem. rewrite (label_pos_None _ _ HE). cbn.
    by eexists. }
  cbn. repeat split. right. exists e. by rewrite lookup_insert_eq.
Qed.

(** C9. Every UPDATE that [save_changes] sends is addressed to one row by
    its [rowid] parameter and its SET clause names only columns of the grid
    other than [rowid]; run on the reference store, such a statement leaves
    the identifiers of all rows of all tables as they were.  Hence, after a
    save committed on the reference store, the rows that were not deleted
    carry the identifiers they had before, in the same order, and the new
    rows come after them. *)
Theorem update_keeps_rowid table_name O E st :
  (∀ tbl sets params r,
     (Update tbl sets params, r) ∈ sent (save_changes table_name O E st).2 ->
     (tbl = table_name) ∧
     ("rowid" ∉ map fst sets) ∧
     (∀ c, c ∈ map fst sets -> c ∈ columns E) ∧
     (∃ rid, params !! "rowid" = Some (VInt rid)) ∧
     (∀ (d d' : Store.db) name,
        Store.run (Update tbl sets params) d = inr d' ->
        Store.rowids <$> (d' !! name) = Store.rowids <$> (d !! name))) ∧
  (∀ (d : Store.db) orig cur t,
     (save_changes (host := Store.host) table_name O E (Store.fresh d)).1 = Commit ->
     get_ids (host := Store.host) O = inr orig ->
     get_ids (host := Store.host) E = inr cur ->
     d !! table_name = Some t ->
     ∃ t' added,
       committed (save_changes (host := Store.host) table_name O E (Store.fresh d)).2
         !! table_name = Some t' ∧
       Store.rowids t'
       = List.filter (fun rid => negb (bool_decide (rid ∈ deleted_ids orig cur)))
                     (Store.rowids t) ++ added).
Proof.
  split; [|intros d orig cur t; apply store_save_rowids].
  intros tbl sets params r Hin.
  pose proof (proj1 (Forall_forall _ _) (save_changes_sent table_name O E st)
                _ Hin) as Hs.
  cbn in Hs. inversion Hs as [ | | orig cur fe fo rid rn ro _ _ Hfe _ _ Hrn _ _ Hupd].
  destruct (update_stmt_free table_name _ _ _ _ _ Hfe Hrn)
    as (sets' & params' & Heq & Hfree & Hcols & Hrid).
  rewrite Heq in Hupd. injection Hupd as <- <- <-.
  repeat split; try done.
  - by exists rid.
  - intros d d' name. rewrite Heq. by apply store_update_rowids.
Qed.

(** C8 (amended). The rows of the edited snapshot whose identifier is null
    travel in one INSERT, each without its [rowid] cell, under the columns of
    the grid without [rowid]; no other INSERT is ever sent, and on the
    reference store such a statement appends its rows under identifiers that
    the engine chooses, new to the table and all different.  A run that
    commits has executed that INSERT on the transaction, after the DELETE and
    before the UPDATE statements, and the database it commits is what these
    statements made; on the reference store, when the table holds the rows of
    the original snapshot, the committed table holds every new row as the
    INSERT appended it, under its new identifier, after the rows that were
    not deleted.  A run that does not commit leaves the database as it was:
    no row is inserted. *)
Theorem new_rows_inserted_without_rowid table_name O E st :
  (∀ row, row ∈ null_rows E <-> row ∈ data E ∧ rowid_of E row = VNull) ∧
  (∀ tbl cols rows r,
     (Insert tbl cols rows, r) ∈ sent (save_changes table_name O E st).2 ->
     Insert tbl cols rows = insert_of table_name E ∧
     ("rowid" ∉ cols) ∧
     (∀ (d d' : Store.db),
        Store.run (Insert tbl cols rows) d = inr d' ->
        ∃ t t' ids, d !! tbl = Some t ∧ d' = <[tbl := t']> d ∧
                    Store.appended t t' ids (map (combine cols) rows))) ∧
  ((save_changes table_name O E st).1 = Commit ->
   null_rows E ≠ [] ->
   ∃ orig cur post d1 d2,
     get_ids O = inr orig ∧ get_ids E = inr cur ∧
     sent (save_changes table_name O E st).2
     = deletion table_name orig cur ++ (insert_of table_name E, None) :: post ∧
     Forall (fun e => ∃ sets params rid,
               e = (Update table_name sets params, None) ∧
               ("rowid" ∉ map fst sets) ∧
               params !! "rowid" = Some (VInt rid) ∧
               rid ∈ common_ids orig cur) post ∧
     replay (deletion table_name orig cur) (committed st) = Some d1 ∧
     db_execute (insert_of table_name E) d1 = inr d2 ∧
     replay post d2 = Some (committed (save_changes table_name O E st).2)) ∧
  ((save_changes table_name O E st).1 ≠ Commit ->
   committed (save_changes table_name O E st).2 = committed st) ∧
  (∀ (d : Store.db) t orig,
     (save_changes (host := Store.host) table_name O E (Store.fresh d)).1 = Commit ->
     d !! table_name = Some t ->
     null_rows E ≠ [] ->
     get_ids (host := Store.host) O = inr orig ->
     (∀ rid, rid ∈ orig -> rid ∈ Store.rowids t) ->
     ∃ cur t1 t2 ids t',
       get_ids (host := Store.host) E = inr cur ∧
       Store.rows t1
       = List.filter (fun r => negb (bool_decide (r.1 ∈ deleted_ids orig cur)))
                     (Store.rows t) ∧
       Store.appended t1 t2 ids
         (map (combine (drop_label "rowid" (columns E)))
              (map (drop_cells "rowid" (columns E)) (null_rows E))) ∧
       committed (save_changes (host := Store.host) table_name O E (Store.fresh d)).2
         !! table_name = Some t' ∧
       Store.rowids t' = Store.rowids t2 ∧
       (∀ e, e ∈ combine ids
                   (map (combine (drop_label "rowid" (columns E)))
                        (map (drop_cells "rowid" (columns E)) (null_rows E))) ->
             e ∈ Store.rows t')).
Proof.
  split; [apply null_rows_spec|].
  split; [|split; [apply committed_insert|]].
  2:{ split; [apply uncommitted_unchanged|]. intros d t orig.
      apply store_save_new_rows. }
  intros tbl cols rows r Hin.
  pose proof (proj1 (Forall_forall _ _) (save_changes_sent table_name O E st)
                _ Hin) as Hs.
  cbn in Hs. inversion Hs as [ | new_rows Hnew _ Heq
                               | orig cur fe fo rid rn ro _ _ _ _ _ _ _ _ Hupd].
  - apply new_rows_data in Hnew as [Hcols Hdata]. cbn in *. subst.
    split; [unfold insert_of, null_rows; by rewrite Hcols, Hdata|]. split.
    + intros Hrowid. by apply drop_label_spec in Hrowid as [_ ?].
    + intros d d'. apply store_run_insert.
  - destruct (update_stmt_shape table_name rid rn) as (? & ? & Hshape & _).
    by rewrite Hshape in Hupd.
Qed.


(** C2 (amended). When both snapshots carry the same set of identifiers,
    every identifier has the same row in both (the row that [.loc] reads:
    labels, dtype and cells) and the edited snapshot holds no row with a null
    identifier, [save_changes] sends no statement: the run commits and the
    database is the one from before the call. *)
Theorem no_change_no_statement table_name O E st ids :
  get_ids O = inr ids -> get_ids E = inr ids ->
  (∀ rid, rid ∈ ids ->
     ∃ row, row_of ids E rid = inr row ∧ row_of ids O rid = inr row) ->
  (∀ row, row ∈ data E -> rowid_of E row ≠ VNull) ->
  sent (save_changes table_name O E st).2 = [] ∧
  (save_changes table_name O E st).1 = Commit ∧
  committed (save_changes table_name O E st).2 = committed st.
Proof.
  intros HO HE Hsame Hfull.
  destruct (get_ids_pos _ _ HO) as [i Hi]. destruct (get_ids_pos _ _ HE) as [j Hj].
  rewrite save_changes_unfold. unfold has_column.
  rewrite bool_decide_true by (by eapply label_pos_elem).
  destruct (existing_rows_ok ids E j Hj) as [fe Hfe].
  destruct (existing_rows_ok ids O i Hi) as [fo Hfo].
  assert (reconcile table_name O E (begin st)
          = (inr (0, 0, 0)%nat, begin st)) as ->; [|done].
  unfold reconcile, mbind, M_bind, bind. rewrite HO, HE. cbn [lift ret].
  assert (deleted_ids ids ids = ∅) as -> by apply difference_diag_L.
  assert (common_ids ids ids = ids) as -> by apply (idemp_L (∩)).
  unfold handle_deletions. rewrite bool_decide_false by (intros H; by apply H).
  unfold rows_where at 1. rewrite Hj. cbn [lift ret].
  rewrite filter_none.
  2:{ intros row Hrow. specialize (Hfull row Hrow). unfold rowid_of in Hfull.
      rewrite Hj in Hfull. by destruct (cell j row). }
  unfold handle_additions, frame_empty. cbn [data columns].
  replace (match columns E with [] | _ => true end) with true
    by (by destruct (columns E)).
  cbn [negb ret]. rewrite Hfe, Hfo. cbn [lift ret].
  rewrite update_loop_quiet; [by rewrite size_empty|].
  intros rid Hrid%in_set_order. specialize (Hsame rid Hrid).
  unfold row_of in Hsame. by rewrite Hfe, Hfo in Hsame.
Qed.


End Properties.

Import Scenario.


Lemma failure_message_kept_witness :
  session_state (run O_ab E_null d_strict).2 !! "error_message"
  = Some (SStr "Error saving changes: NOT NULL constraint failed: t.v").
Proof.
  apply (failure_message_kept (host := Store.host) "t" O_ab E_null
           (Store.fresh d_strict)
           (update_stmt "t" 1 (mkSeries ["v"] Object [VNull]))
           "NOT NULL constraint failed: t.v").
  vm_compute. apply list_elem_of_further, list_elem_of_here.
Defined.

Lemma deleted_common_partition_witness :
  deleted_ids (list_to_set [1%Z; 2%Z]) (list_to_set [1%Z; 3%Z])
  ## common_ids (list_to_set [1%Z; 2%Z]) (list_to_set [1%Z; 3%Z]) ∧
  deleted_ids (list_to_set [1%Z; 2%Z]) (list_to_set [1%Z; 3%Z])
  ∪ common_ids (list_to_set [1%Z; 2%Z]) (list_to_set [1%Z; 3%Z])
  = list_to_set [1%Z; 2%Z].
Proof.
  apply (deleted_common_partition (host := Store.host) O_ab E_a3b);
    reflexivity.
Defined.

Lemma missing_rowid_rejected_witness :
  sent (run O_bare O_bare d_a).2 = [] ∧
  committed (run O_bare O_bare d_a).2 = d_a ∧
  working (run O_bare O_bare d_a).2 = d_a ∧
  (((run O_bare O_bare d_a).1 = Reject ∧
    shown (run O_bare O_bare d_a).2
    = [] ++ ["Cannot save changes: 'rowid' column missing."]) ∨
   (∃ e, (run O_bare O_bare d_a).1 = Abort (PyExn e) ∧
         session_state (run O_bare O_bare d_a).2 !! "error_message"
         = Some (SStr ("Error saving changes: " +:+ str_exn (PyExn e))))).
Proof.
  apply (missing_rowid_rejected (host := Store.host) "t" O_bare O_bare
           (Store.fresh d_a)).
  left. vm_compute. inversion 1 as [|? ? ? H]; inversion H.
Defined.

Lemma update_keeps_rowid_witness :
  (("t" = "t") ∧
   ("rowid" ∉ map fst [("v", "v")]) ∧
   (∀ c, c ∈ map fst [("v", "v")] -> c ∈ columns E_z) ∧
   (∃ rid, (<["rowid" := VInt 1]> {["v" := VStr "z"]} : gmap string value)
             !! "rowid" = Some (VInt rid)) ∧
   (∀ (d d' : Store.db) name,
      Store.run (Update "t" [("v", "v")]
                   (<["rowid" := VInt 1]> {["v" := VStr "z"]})) d = inr d' ->
      Store.rowids <$> (d' !! name) = Store.rowids <$> (d !! name))) ∧
  (∃ t' added,
     committed (save_changes (host := Store.host) "t" O_a E_z (Store.fresh d_a)).2
       !! "t" = Some t' ∧
     Store.rowids t'
     = List.filter (fun rid => negb (bool_decide
                      (rid ∈ deleted_ids (list_to_set [1%Z]) (list_to_set [1%Z]))))
                   (Store.rowids (Store.mkTable [] [(1%Z, [("v", VStr "a")])]))
       ++ added).
Proof.
  pose proof (update_keeps_rowid (host := Store.host) "t" O_a E_z
                (Store.fresh d_a)) as [Hstmt Hsave].
  split.
  - apply (Hstmt "t" [("v", "v")] (<["rowid" := VInt 1]> {["v" := VStr "z"]}) None).
    vm_compute. apply list_elem_of_here.
  - destruct (Hsave d_a (list_to_set [1%Z]) (list_to_set [1%Z])
                (Store.mkTable [] [(1%Z, [("v", VStr "a")])]))
      as (t' & added & Ht' & Hids); [reflexivity..|].
    exists t', added. split; [exact Ht'|exact Hids].
Defined.

Lemma new_rows_inserted_without_rowid_witness :
  (run O_a E_a_new d_a).1 = Commit ∧
  null_rows E_a_new ≠ [] ∧
  ∃ cur t1 t2 ids t',
    get_ids (host := Store.host) E_a_new = inr cur ∧
    Store.rows t1
    = List.filter
        (fun r => negb (bool_decide (r.1 ∈ deleted_ids (list_to_set [1%Z]) cur)))
        [(1%Z, [("v", VStr "a")])] ∧
    Store.appended t1 t2 ids
      (map (combine (drop_label "rowid" (columns E_a_new)))
           (map (drop_cells "rowid" (columns E_a_new)) (null_rows E_a_new))) ∧
    committed (run O_a E_a_new d_a).2 !! "t" = Some t' ∧
    Store.rowids t' = Store.rowids t2 ∧
    (∀ e, e ∈ combine ids
                (map (combine (drop_label "rowid" (columns E_a_new)))
                     (map (drop_cells "rowid" (columns E_a_new))
                          (null_rows E_a_new))) ->
          e ∈ Store.rows t').
Proof.
  assert (Hcommit : (run O_a E_a_new d_a).1 = Commit) by reflexivity.
  assert (Hrows : null_rows E_a_new ≠ []) by discriminate.
  split; [exact Hcommit|]. split; [exact Hrows|].
  destruct (new_rows_inserted_without_rowid (host := Store.host)
              "t" O_a E_a_new (Store.fresh d_a)) as (_ & _ & _ & _ & Hstore).
  apply (Hstore d_a (Store.mkTable [] [(1%Z, [("v", VStr "a")])])
           (list_to_set [1%Z]) Hcommit); [reflexivity|exact Hrows|reflexivity|].
  intros rid Hrid. apply elem_of_list_to_set, list_elem_of_singleton in Hrid.
  subst rid. apply list_elem_of_here.
Defined.


Lemma no_change_no_statement_witness :
  sent (run O_a O_a d_a).2 = [] ∧
  (run O_a O_a d_a).1 = Commit ∧
  committed (run O_a O_a d_a).2 = d_a.
Proof.
  apply (no_change_no_statement (host := Store.host) "t" O_a O_a
           (Store.fresh d_a) (list_to_set [1%Z])).
  - reflexivity.
  - reflexivity.
  - intros rid Hrid. apply elem_of_list_to_set, list_elem_of_singleton in Hrid.
    subst rid. exists (mkSeries ["v"] Object [VStr "a"]). split; reflexivity.
  - intros row Hrow. apply list_elem_of_singleton in Hrow. subst row.
    vm_compute. discriminate.
Defined.


(** C2, as stated, fails: the grid keeps row 1 as it is and gains a row with
    a null identifier.  Both snapshots have the identifier set {1} and the
    same row for it, and still an INSERT is sent. *)
Lemma unchanged_rows_counterexample :
  get_ids (host := Store.host) O_a = inr (list_to_set [1%Z]) ∧
  get_ids (host := Store.host) E_a_new = inr (list_to_set [1%Z]) ∧
  (∀ rid, rid ∈ (list_to_set [1%Z] : gset Z) ->
     ∃ row, row_of (list_to_set [1%Z]) E_a_new rid = inr row ∧
            row_of (list_to_set [1%Z]) O_a rid = inr row) ∧
  sent (run O_a E_a_new d_a).2 = [(Insert "t" ["v"] [[VStr "b"]], None)] ∧
  sent (run O_a E_a_new d_a).2 ≠ [].
Proof.
  repeat split; try reflexivity; [|discriminate].
  intros rid Hrid. apply elem_of_list_to_set, list_elem_of_singleton in Hrid.
  subst rid. exists (mkSeries ["v"] Object [VStr "a"]). split; reflexivity.
Qed.





(** C8, as stated, fails: an empty row added to the grid has a null
    identifier, and the NOT NULL column of the table refuses it.  The INSERT
    fails, the run ends in the handler and the table is the one from before:
    the row was not inserted. *)
Lemma new_row_not_inserted_counterexample :
  [VNull; VNull] ∈ data E_ab_empty ∧
  rowid_of E_ab_empty [VNull; VNull] = VNull ∧
  sent (run O_ab E_ab_empty d_strict).2
  = [(Insert "t" ["v"] [[VNull]], Some "NOT NULL constraint failed: t.v")] ∧
  (run O_ab E_ab_empty d_strict).1
  = Abort (DBError "NOT NULL constraint failed: t.v") ∧
  committed (run O_ab E_ab_empty d_strict).2 = d_strict.
Proof.
  repeat split; try reflexivity.
  apply list_elem_of_further, list_elem_of_further, list_elem_of_here.
Qed.

(** ** Further properties of [save_changes] *)

Section Targets.
Context {host : Host}.

Lemma set_order_NoDup (s : gset Z) : NoDup (set_order s).
Proof. rewrite (set_order_perm s). apply NoDup_elements. Qed.

Lemma set_order_length (s : gset Z) : length (set_order s) = size s.
Proof. by rewrite (set_order_perm s). Qed.

(** Where a DELETE of the log comes from. *)
Lemma sent_delete_inv table_name O E st tbl ids r :
  (Delete tbl ids, r) ∈ sent (save_changes table_name O E st).2 ->
  ∃ orig cur,
    get_ids O = inr orig ∧ get_ids E = inr cur ∧ tbl = table_name ∧
    deleted_ids orig cur ≠ ∅ ∧ ids = set_order (deleted_ids orig cur).
Proof.
  intros Hin.
  pose proof (proj1 (Forall_forall _ _) (save_changes_sent table_name O E st)
                _ Hin) as Hs.
  cbn in Hs. inversion Hs as [orig cur HO HE Hne
                             | | ? ? ? ? rid rn ? _ _ _ _ _ _ _ _ Hupd].
  - by exists orig, cur.
  - destruct (update_stmt_shape table_name rid rn) as (? & ? & Hshape & _).
    by rewrite Hshape in Hupd.
Qed.

(** Where an UPDATE of the log comes from. *)
Lemma sent_update_inv table_name O E st tbl sets params r :
  (Update tbl sets params, r) ∈ sent (save_changes table_name O E st).2 ->
  ∃ orig cur rid,
    get_ids O = inr orig ∧ get_ids E = inr cur ∧
    rid ∈ common_ids orig cur ∧ params !! "rowid" = Some (VInt rid).
Proof.
  intros Hin.
  pose proof (proj1 (Forall_forall _ _) (save_changes_sent table_name O E st)
                _ Hin) as Hs.
  cbn in Hs. inversion Hs as [ | | orig cur fe fo rid rn ro HO HE _ _ Hrid _ _ _ Hupd].
  destruct (update_stmt_shape table_name rid rn) as (? & ? & Hshape & _ & Hparam).
  rewrite Hshape in Hupd. injection Hupd as <- <- <-.
  by exists orig, cur, rid.
Qed.

(** X1. A DELETE sent by [save_changes] names, each once, exactly the
    identifiers that the original snapshot holds and the edited snapshot does
    not: a row still in the grid is never deleted, and no DELETE is sent for
    an empty list. *)
Theorem delete_names_departed table_name O E st tbl ids r :
  (Delete tbl ids, r) ∈ sent (save_changes table_name O E st).2 ->
  ∃ orig cur,
    get_ids O = inr orig ∧ get_ids E = inr cur ∧
    tbl = table_name ∧ NoDup ids ∧ ids ≠ [] ∧
    (∀ rid, rid ∈ ids <-> rid ∈ orig ∧ rid ∉ cur).
Proof.
  intros (orig & cur & HO & HE & -> & Hne & ->)%sent_delete_inv.
  exists orig, cur. split; [done|]. split; [done|]. split; [done|].
  split; [apply set_order_NoDup|]. split.
  - intros Hnil. apply Hne, leibniz_equiv, size_empty_inv.
    by rewrite <- set_order_length, Hnil.
  - intros rid. unfold deleted_ids. by rewrite in_set_order, elem_of_difference.
Qed.

(** X2. An UPDATE sent by [save_changes] is addressed to an identifier that
    both snapshots hold; no identifier is both deleted and updated by the
    same save. *)
Theorem update_targets_kept_row table_name O E st tbl sets params r :
  (Update tbl sets params, r) ∈ sent (save_changes table_name O E st).2 ->
  ∃ orig cur rid,
    get_ids O = inr orig ∧ get_ids E = inr cur ∧
    params !! "rowid" = Some (VInt rid) ∧ rid ∈ orig ∧ rid ∈ cur ∧
    (∀ tbl' ids r',
       (Delete tbl' ids, r') ∈ sent (save_changes table_name O E st).2 ->
       rid ∉ ids).
Proof.
  intros (orig & cur & rid & HO & HE & [Ho Hc]%elem_of_intersection & Hparam)%sent_update_inv.
  exists orig, cur, rid. do 5 (split; [done|]).
  intros tbl' ids r' (orig' & cur' & HO' & HE' & _ & _ & ->)%sent_delete_inv.
  rewrite HO in HO'. rewrite HE in HE'. injection HO' as <-. injection HE' as <-.
  by intros [_ ?]%in_set_order%elem_of_difference.
Qed.

End Targets.

Section Totals.
Context {host : Host}.

Lemma planned_updates_shape table_name fe fo rids :
  Forall (fun s => ∃ sets params, s = Update table_name sets params)
         (planned_updates table_name fe fo rids).
Proof.
  apply Forall_forall. intros s. unfold planned_updates.
  rewrite list_elem_of_In, in_flat_map. intros (rid & _ & Hs).
  destruct (loc rid fe) as [?|row_new]; [done|].
  destruct (loc rid fo) as [?|row_orig]; [done|].
  destruct (series_equals row_new row_orig); [done|].
  destruct Hs as [<-|[]].
  destruct (update_stmt_shape table_name rid row_new) as (sets & params & -> & _).
  by exists sets, params.
Qed.

Lemma sum_updates (f : stmt * option string -> nat) (n : nat) l table_name :
  Forall (fun s => ∃ sets params, s = Update table_name sets params) l ->
  (∀ sets params r, f (Update table_name sets params, r) = n) ->
  sum_list_with f (map went_through l) = (n * length l)%nat.
Proof.
  intros Hall Hf. induction Hall as [|s l (sets & params & ->) _ IH]; cbn; [lia|].
  rewrite IH. unfold went_through at 1. rewrite Hf. lia.
Qed.

(** An empty frame of new rows has no row: it kept the labels of [E]. *)
Lemma new_rows_empty E new_rows :
  rows_where "rowid" isna E = inr new_rows ->
  frame_empty new_rows = true -> data new_rows = [].
Proof.
  intros (i & Hpos & Hcols & _)%rows_where_inv. unfold frame_empty.
  rewrite Hcols. destruct (columns E) as [|c cols]; [done|].
  by destruct (data new_rows).
Qed.

(** X3. The totals that a committed save reports are those of its log:
    Added is the number of rows in the INSERT, Deleted the number of
    identifiers in the DELETE, Updated the number of UPDATE statements. *)
Theorem reported_totals_match_log table_name O E st :
  (save_changes table_name O E st).1 = Commit ->
  session_state (save_changes table_name O E st).2 !! "success_message"
  = Some (SStr (success_text
                  (rows_inserted (sent (save_changes table_name O E st).2))
                  (ids_deleted (sent (save_changes table_name O E st).2))
                  (updates_sent (sent (save_changes table_name O E st).2)))).
Proof.
  intros (orig & cur & new_rows & fe & fo & _ & _ & Hnew & _ & _ & -> & ->)%committed_log.
  pose proof (planned_updates_shape table_name fe fo
                (set_order (common_ids orig cur))) as Hupd.
  unfold rows_inserted, ids_deleted, updates_sent, planned.
  rewrite !map_app, !sum_list_with_app.
  rewrite (sum_updates (fun e => match e.1 with
                                  | Insert _ _ rows => length rows
                                  | _ => 0%nat
                                  end) 0 _ table_name Hupd) by done.
  rewrite (sum_updates (fun e => match e.1 with
                                  | Delete _ ids => length ids
                                  | _ => 0%nat
                                  end) 0 _ table_name Hupd) by done.
  rewrite (sum_updates (fun e => match e.1 with
                                  | Update _ _ _ => 1%nat
                                  | _ => 0%nat
                                  end) 1 _ table_name Hupd) by done.
  do 3 f_equal.
  - case_bool_decide; destruct (frame_empty new_rows) eqn:Hempty; cbn;
      rewrite ?(new_rows_empty _ _ Hnew Hempty), ?length_map; cbn; lia.
  - case_bool_decide as Hdel; destruct (frame_empty new_rows); cbn;
      rewrite ?set_order_length, ?Hdel, ?size_empty; lia.
  - case_bool_decide; destruct (frame_empty new_rows); cbn; lia.
Qed.

(** X4. A committed save sent at most one DELETE, then at most one INSERT,
    then its UPDATE statements, and every statement went through. *)
Theorem committed_log_order table_name O E st :
  (save_changes table_name O E st).1 = Commit ->
  ∃ dels ins upds,
    sent (save_changes table_name O E st).2 = dels ++ ins ++ upds ∧
    (length dels ≤ 1)%nat ∧ (length ins ≤ 1)%nat ∧
    Forall (fun e => ∃ ids, e = (Delete table_name ids, None)) dels ∧
    Forall (fun e => ∃ cols rows, e = (Insert table_name cols rows, None)) ins ∧
    Forall (fun e => ∃ sets params, e = (Update table_name sets params, None)) upds.
Proof.
  intros (orig & cur & new_rows & fe & fo & _ & _ & _ & _ & _ & -> & _)%committed_log.
  unfold planned. rewrite !map_app. eexists _, _, _. split; [done|].
  repeat split.
  - case_bool_decide; cbn; lia.
  - destruct (frame_empty new_rows); cbn; lia.
  - case_bool_decide; repeat constructor. by eexists.
  - destruct (frame_empty new_rows); repeat constructor. by eexists _, _.
  - apply Forall_fmap. eapply Forall_impl; [apply planned_updates_shape|].
    intros s (sets & params & ->). by exists sets, params.
Qed.

End Totals.

(** ** The UPDATE built for a row (lines 219-239) *)

Section UpdateStatement.
Context {host : Host}.
#[local] Arguments clean_key : simpl never.

Lemma dict_set_fresh k v d : k ∉ map fst d -> dict_set k v d = d ++ [(k, v)].
Proof.
  induction d as [|[k0 v0] d IH]; cbn; [done|].
  intros [Hne Hnot]%not_elem_of_cons.
  destruct (decide (k0 = k)); [done|]. by rewrite IH.
Qed.

Lemma dict_fold_distinct (kvs d : list (string * value)) :
  NoDup (map fst (d ++ kvs)) ->
  fold_left (fun d kv => dict_set kv.1 kv.2 d) kvs d = d ++ kvs.
Proof.
  revert d. induction kvs as [|[k v] kvs IH]; intros d Hnd; cbn.
  - by rewrite app_nil_r.
  - rewrite dict_set_fresh.
    + rewrite IH; rewrite <- app_assoc; [done|]. exact Hnd.
    + rewrite map_app in Hnd. apply NoDup_app in Hnd as (_ & Hdisj & _).
      intros Hin. apply (Hdisj _ Hin). by left.
Qed.

Lemma combine_keys (labels : list string) (values : list value) c v :
  (c, v) ∈ combine labels values -> c ∈ labels.
Proof. rewrite !list_elem_of_In. apply in_combine_l. Qed.

Lemma combine_NoDup (labels : list string) (values : list value) :
  NoDup labels -> NoDup (map fst (combine labels values)).
Proof.
  revert values. induction labels as [|c labels IH]; intros [|v values] Hnd;
    cbn; try constructor.
  - apply NoDup_cons in Hnd as [Hnot _]. intros Hin. apply Hnot.
    apply list_elem_of_fmap in Hin as ([c' v'] & -> & Hin).
    by eapply combine_keys.
  - apply IH. by apply NoDup_cons in Hnd as [_ ?].
Qed.

(** With distinct labels the dictionary of a row lists its columns in order. *)
Lemma to_dict_distinct labels dt values :
  NoDup labels -> to_dict (mkSeries labels dt values) = combine labels values.
Proof.
  intros Hnd. unfold to_dict. cbn. rewrite dict_fold_distinct; [done|].
  by apply combine_NoDup.
Qed.

Lemma bind_other (kvs : list (string * value)) (m : gmap string value) k :
  k ∉ map (fun kv => clean_key kv.1) kvs ->
  fold_left (fun m kv => <[clean_key kv.1 := kv.2]> m) kvs m !! k = m !! k.
Proof.
  revert m. induction kvs as [|[c v] kvs IH]; intros m; cbn; [done|].
  intros [Hne Hnot]%not_elem_of_cons. rewrite IH by done.
  by rewrite lookup_insert_ne.
Qed.

Lemma bind_lookup (kvs : list (string * value)) (m : gmap string value) c v :
  NoDup (map (fun kv => clean_key kv.1) kvs) -> (c, v) ∈ kvs ->
  fold_left (fun m kv => <[clean_key kv.1 := kv.2]> m) kvs m !! clean_key c
  = Some v.
Proof.
  revert m. induction kvs as [|[c0 v0] kvs IH]; intros m; cbn;
    [by intros _ ?%elem_of_nil|].
  intros [Hnot Hnd]%NoDup_cons [[= -> ->]|Hin]%elem_of_cons.
  - rewrite bind_other by done. apply lookup_insert_eq.
  - by apply IH.
Qed.

(** While bind keys are new, the loop of lines 223-233 takes each column's
    cleaned name as its key. *)
Lemma update_step_fresh (kvs : list (string * value)) m sets :
  NoDup (map (fun kv => clean_key kv.1) kvs) ->
  (∀ kv, kv ∈ kvs -> m !! clean_key kv.1 = None) ->
  fold_left update_step kvs (m, sets)
  = (fold_left (fun m kv => <[clean_key kv.1 := kv.2]> m) kvs m,
     sets ++ map (fun kv => (kv.1, clean_key kv.1)) kvs).
Proof.
  revert m sets. induction kvs as [|[c v] kvs IH]; intros m sets; cbn.
  - by rewrite app_nil_r.
  - intros [Hnot Hnd]%NoDup_cons Hfree.
    assert (Hc : m !! clean_key c = None) by (apply (Hfree (c, v)); by left).
    rewrite Hc. cbn.
    rewrite IH; [by rewrite <- app_assoc|done|].
    intros kv Hkv. rewrite lookup_insert_ne.
    + apply Hfree. by right.
    + intros Heq. apply Hnot. rewrite Heq.
      by apply (list_elem_of_fmap_2 (fun kv => clean_key kv.1)).
Qed.

Lemma update_step_grows (kvs : list (string * value)) acc x :
  x ∈ acc.2 -> x ∈ (fold_left update_step kvs acc).2.
Proof.
  revert acc. induction kvs as [|[c v] kvs IH]; intros [m sets]; [done|].
  intros Hx. cbn. apply IH. cbn. apply elem_of_app. by left.
Qed.

Lemma combine_clean_keys (labels : list string) (values : list value) :
  ∀ k, k ∈ map (fun kv : string * value => clean_key kv.1) (combine labels values) ->
       k ∈ map clean_key labels.
Proof.
  intros k ([c v] & -> & Hin)%list_elem_of_fmap. cbn.
  apply list_elem_of_fmap_2. by eapply combine_keys.
Qed.

Lemma combine_clean_NoDup (labels : list string) (values : list value) :
  NoDup (map clean_key labels) ->
  NoDup (map (fun kv : string * value => clean_key kv.1) (combine labels values)).
Proof.
  revert values. induction labels as [|c labels IH]; intros [|v values];
    cbn; try constructor.
  - apply NoDup_cons in H as [Hnot _]. intros Hin. apply Hnot.
    by eapply combine_clean_keys.
  - apply IH. by apply NoDup_cons in H as [_ ?].
Qed.

Lemma combine_full (labels : list string) (values : list value) :
  length labels = length values ->
  map (fun kv : string * value => (kv.1, clean_key kv.1)) (combine labels values)
  = map (fun c => (c, clean_key c)) labels.
Proof.
  revert values. induction labels as [|c labels IH]; intros [|v values];
    cbn; try done. intros [= Hlen]. by rewrite IH.
Qed.

(** X5. When the cleaned names of the columns of a row are pairwise distinct
    and none of them is [rowid], the UPDATE built for the row sets every
    column, in order, through the bind key that is its cleaned name, binds
    that key to the edited value of the column and binds [rowid] to the
    identifier of the row. *)
Theorem update_binds_edited_values table_name rid labels dt values :
  NoDup (map clean_key labels) ->
  "rowid" ∉ map clean_key labels ->
  length labels = length values ->
  ∃ params,
    update_stmt table_name rid (mkSeries labels dt values)
    = Update table_name (map (fun c => (c, clean_key c)) labels) params ∧
    params !! "rowid" = Some (VInt rid) ∧
    (∀ c v, (c, v) ∈ combine labels values -> params !! clean_key c = Some v).
Proof.
  intros Hnd Hrowid Hlen.
  assert (Hlabels : NoDup labels) by (by eapply NoDup_fmap_1).
  unfold update_stmt. rewrite (to_dict_distinct _ _ _ Hlabels).
  rewrite update_step_fresh; [|by apply combine_clean_NoDup|done].
  eexists. split; [by rewrite (combine_full _ _ Hlen)|].
  split; [apply lookup_insert_eq|].
  intros c v Hin. rewrite lookup_insert_ne.
  - apply bind_lookup; [by apply combine_clean_NoDup|done].
  - intros Heq. apply Hrowid. rewrite Heq. apply list_elem_of_fmap_2.
    by eapply combine_keys.
Qed.

Lemma combine_split (pre post : list string) (vpre vpost : list value) c v :
  length pre = length vpre ->
  combine (pre ++ c :: post) (vpre ++ v :: vpost)
  = combine pre vpre ++ (c, v) :: combine post vpost.
Proof.
  revert vpre. induction pre as [|c0 pre IH]; intros [|v0 vpre]; cbn; try done.
  intros [= Hlen]. by rewrite IH.
Qed.

(** X6. A column whose cleaned name is [rowid] (such as [row.id]), coming
    before any other column with that cleaned name, gets [rowid] as its bind
    key; line 239 then binds that key to the identifier of the row, so the
    UPDATE sets the column to the row identifier. *)
Theorem rowid_bind_key_taken table_name rid pre c post dt vpre v vpost :
  NoDup (pre ++ c :: post) ->
  length pre = length vpre ->
  NoDup (map clean_key pre) ->
  "rowid" ∉ map clean_key pre ->
  clean_key c = "rowid" ->
  ∃ sets params,
    update_stmt table_name rid
      (mkSeries (pre ++ c :: post) dt (vpre ++ v :: vpost))
    = Update table_name sets params ∧
    (c, "rowid") ∈ sets ∧
    params !! "rowid" = Some (VInt rid).
Proof.
  intros Hnd Hlen Hpre Hfree Hc.
  unfold update_stmt.
  rewrite (to_dict_distinct _ _ _ Hnd), (combine_split _ _ _ _ _ _ Hlen).
  rewrite fold_left_app, update_step_fresh; [|by apply combine_clean_NoDup|done].
  cbn [fold_left update_step app]. rewrite Hc, bind_other, lookup_empty.
  2:{ intros Hin. by apply Hfree, (combine_clean_keys pre vpre). }
  cbn.
  match goal with
  | |- context [fold_left update_step ?kvs ?acc] =>
      pose proof (update_step_grows kvs acc (c, "rowid")) as Hgrow;
      destruct (fold_left update_step kvs acc) as [m sets]
  end.
  exists sets, (<["rowid" := VInt rid]> m). split; [done|].
  split; [|apply lookup_insert_eq].
  apply Hgrow. cbn. apply elem_of_app. right. by left.
Qed.

End UpdateStatement.

Lemma rowid_bind_key_taken_witness :
  ∃ sets params,
    update_stmt (host := Store.host) "t" 7
      (mkSeries (["v"] ++ "row.id" :: []) Object ([VStr "a"] ++ VInt 42 :: []))
    = Update "t" sets params ∧
    ("row.id", "rowid") ∈ sets ∧
    params !! "rowid" = Some (VInt 7).
Proof.
  apply (rowid_bind_key_taken (host := Store.host) "t" 7 ["v"] "row.id" []
           Object [VStr "a"] (VInt 42) []).
  - apply (bool_decide_unpack _). vm_compute. exact I.
  - reflexivity.
  - apply (bool_decide_unpack _). vm_compute. exact I.
  - apply (bool_decide_unpack _). vm_compute. exact I.
  - reflexivity.
Defined.

Lemma update_binds_edited_values_witness :
  ∃ params,
    update_stmt (host := Store.host) "t" 7
      (mkSeries ["first name"; "age"] Object [VStr "z"; VInt 3])
    = Update "t" (map (fun c => (c, clean_key c)) ["first name"; "age"]) params ∧
    params !! "rowid" = Some (VInt 7) ∧
    (∀ c v, (c, v) ∈ combine ["first name"; "age"] [VStr "z"; VInt 3] ->
            params !! clean_key c = Some v).
Proof.
  apply (update_binds_edited_values (host := Store.host) "t" 7
           ["first name"; "age"] Object [VStr "z"; VInt 3]).
  - apply (bool_decide_unpack _). vm_compute. exact I.
  - apply (bool_decide_unpack _). vm_compute. exact I.
  - reflexivity.
Defined.

Lemma delete_names_departed_witness :
  ∃ orig cur,
    get_ids (host := Store.host) O_ab = inr orig ∧
    get_ids (host := Store.host) E_a3b = inr cur ∧
    "t" = "t" ∧ NoDup [2%Z] ∧ [2%Z] ≠ [] ∧
    (∀ rid, rid ∈ [2%Z] <-> rid ∈ orig ∧ rid ∉ cur).
Proof.
  apply (delete_names_departed (host := Store.host) "t" O_ab E_a3b
           (Store.fresh d_ab) "t" [2%Z] None).
  vm_compute. apply list_elem_of_here.
Defined.

Lemma update_targets_kept_row_witness :
  ∃ orig cur rid,
    get_ids (host := Store.host) O_a = inr orig ∧
    get_ids (host := Store.host) E_z = inr cur ∧
    (<["rowid" := VInt 1]> {["v" := VStr "z"]} : gmap string value) !! "rowid"
    = Some (VInt rid) ∧ rid ∈ orig ∧ rid ∈ cur ∧
    (∀ tbl' ids r', (Delete tbl' ids, r') ∈ sent (run O_a E_z d_a).2 -> rid ∉ ids).
Proof.
  apply (update_targets_kept_row (host := Store.host) "t" O_a E_z
           (Store.fresh d_a) "t" [("v", "v")]
           (<["rowid" := VInt 1]> {["v" := VStr "z"]}) None).
  vm_compute. apply list_elem_of_here.
Defined.

Lemma reported_totals_match_log_witness :
  session_state (run O_ab E_a3b d_ab).2 !! "success_message"
  = Some (SStr (success_text
                  (rows_inserted (sent (run O_ab E_a3b d_ab).2))
                  (ids_deleted (sent (run O_ab E_a3b d_ab).2))
                  (updates_sent (sent (run O_ab E_a3b d_ab).2)))).
Proof.
  apply (reported_totals_match_log (host := Store.host) "t" O_ab E_a3b
           (Store.fresh d_ab)).
  reflexivity.
Defined.

Lemma committed_log_order_witness :
  ∃ dels ins upds,
    sent (run O_ab E_a3b d_ab).2 = dels ++ ins ++ upds ∧
    (length dels ≤ 1)%nat ∧ (length ins ≤ 1)%nat ∧
    Forall (fun e => ∃ ids, e = (Delete "t" ids, None)) dels ∧
    Forall (fun e => ∃ cols rows, e = (Insert "t" cols rows, None)) ins ∧
    Forall (fun e => ∃ sets params, e = (Update "t" sets params, None)) upds.
Proof.
  apply (committed_log_order (host := Store.host) "t" O_ab E_a3b
           (Store.fresh d_ab)).
  reflexivity.
Defined.

(** ** Bind keys (line 225) *)

Lemma chars_append s1 s2 :
  list_ascii_of_string (s1 +:+ s2)
  = list_ascii_of_string s1 ++ list_ascii_of_string s2.
Proof. induction s1 as [|a s1 IH]; simpl; [done|]. by rewrite IH. Qed.

(** A character that the replacement does not bring in is absent from the
    result when it is the replaced one or was absent before. *)
Lemma str_replace_absent c by_ s a :
  a ∉ list_ascii_of_string by_ ->
  a = c ∨ a ∉ list_ascii_of_string s ->
  a ∉ list_ascii_of_string (str_replace c by_ s).
Proof.
  intros Hby. induction s as [|b s IH]; cbn [str_replace list_ascii_of_string];
    [by intros _ ?%elem_of_nil|].
  intros Hs.
  assert (Hrest : a = c ∨ a ∉ list_ascii_of_string s).
  { destruct Hs as [->|Hs]; [by left|right]. intros Hin. apply Hs. by right. }
  destruct (Ascii.eqb_spec b c) as [->|Hne].
  - rewrite chars_append. intros [?|?]%elem_of_app; [done|by apply IH].
  - cbn [list_ascii_of_string]. intros [->|Hin]%elem_of_cons; [|by apply IH].
    destruct Hs as [->|Hs]; [done|]. apply Hs. by left.
Qed.

Lemma str_replace_id c by_ s :
  c ∉ list_ascii_of_string s -> str_replace c by_ s = s.
Proof.
  induction s as [|b s IH]; cbn [str_replace list_ascii_of_string]; [done|].
  intros [Hne Hnot]%not_elem_of_cons.
  destruct (Ascii.eqb_spec b c) as [->|_]; [done|]. by rewrite IH.
Qed.

(** X7. A bind key holds no space, no parenthesis and no dot, whatever the
    name of the column; cleaning a bind key again changes nothing. *)
Theorem clean_key_characters col :
  (∀ a, a ∈ list_ascii_of_string (clean_key col) ->
        a ≠ " "%char ∧ a ≠ "("%char ∧ a ≠ ")"%char ∧ a ≠ "."%char) ∧
  clean_key (clean_key col) = clean_key col.
Proof.
  assert (Hfree : ∀ a, a ∈ [" "; "("; ")"; "."]%char ->
                       a ∉ list_ascii_of_string (clean_key col)).
  { intros a Ha. unfold clean_key.
    assert (Hnone : a ∉ list_ascii_of_string EmptyString) by apply not_elem_of_nil.
    assert (Hunder : a ∉ list_ascii_of_string "_").
    { intros ->%list_elem_of_singleton.
      repeat (apply elem_of_cons in Ha as [[=]|Ha]). by apply elem_of_nil in Ha. }
    repeat (apply elem_of_cons in Ha as [->|Ha]);
      [..|by apply elem_of_nil in Ha];
      repeat first [ apply str_replace_absent; [assumption|] | by left | right ]. }
  assert (Hlisted : ∀ a, a = " "%char ∨ a = "("%char ∨ a = ")"%char ∨ a = "."%char ->
                         a ∈ [" "; "("; ")"; "."]%char).
  { intros a Ha. rewrite !elem_of_cons. tauto. }
  split.
  - intros a Ha. repeat split; intros ->; (eapply Hfree; [|exact Ha]);
      apply Hlisted; tauto.
  - unfold clean_key at 1.
    rewrite (str_replace_id " "), (str_replace_id "("), (str_replace_id ")"),
      (str_replace_id "."); try done; apply Hfree, Hlisted; tauto.
Qed.

(** ** More on the three phases *)

Section Phases.
Context {host : Host}.

Lemma drop_cells_length lbl cols (row : list value) :
  length row = length cols ->
  length (drop_cells lbl cols row) = length (drop_label lbl cols).
Proof.
  revert row. induction cols as [|c cols IH]; intros [|v row]; cbn; try done.
  intros [= Hlen]. destruct (decide (c = lbl)) as [->|Hne].
  - rewrite bool_decide_true by done. cbn. by apply IH.
  - rewrite bool_decide_false by done. cbn. by rewrite IH.
Qed.

(** Where an INSERT of the log comes from. *)
Lemma sent_insert_inv table_name O E st tbl cols rows r :
  (Insert tbl cols rows, r) ∈ sent (save_changes table_name O E st).2 ->
  tbl = table_name ∧ cols = drop_label "rowid" (columns E) ∧
  rows = map (drop_cells "rowid" (columns E))
             (List.filter (fun row => isna (rowid_of E row)) (data E)) ∧
  List.filter (fun row => isna (rowid_of E row)) (data E) ≠ [].
Proof.
  intros Hin.
  pose proof (proj1 (Forall_forall _ _) (save_changes_sent table_name O E st)
                _ Hin) as Hs.
  cbn in Hs. inversion Hs as [ | new_rows Hnew Hempty Heq
                               | ? ? ? ? rid rn ? _ _ _ _ _ _ _ _ Hupd].
  - apply new_rows_data in Hnew as [Hcols Hdata].
    unfold drop_columns; cbn. rewrite Hcols, Hdata. repeat split.
    rewrite <- Hdata. unfold frame_empty in Hempty.
    destruct (columns new_rows); [done|]. by destruct (data new_rows).
  - destruct (update_stmt_shape table_name rid rn) as (? & ? & Hshape & _).
    by rewrite Hshape in Hupd.
Qed.

(** X8. When the edited snapshot is rectangular, so is every INSERT: each
    row sent holds one value per column listed, and there is at least one
    row. *)
Theorem insert_is_rectangular table_name O E st tbl cols rows r :
  (∀ row, row ∈ data E -> length row = length (columns E)) ->
  (Insert tbl cols rows, r) ∈ sent (save_changes table_name O E st).2 ->
  rows ≠ [] ∧ ∀ row, row ∈ rows -> length row = length cols.
Proof.
  intros Hrect (-> & -> & -> & Hsome)%sent_insert_inv. split.
  - intros Hnil. apply Hsome. by apply map_eq_nil in Hnil.
  - intros row (full & -> & Hfull)%list_elem_of_fmap.
    apply drop_cells_length, Hrect.
    by apply list_elem_of_In, filter_In in Hfull as [?%list_elem_of_In _].
Qed.

Lemma astype_int_all_error col e :
  astype_int_all col = inl e -> ∃ m, e = ValueError m.
Proof.
  induction col as [|v col IH]; cbn; [done|].
  destruct v as [|z|s]; cbn.
  - intros [= <-]. by eexists.
  - destruct (astype_int_all col); [|done]. intros [= <-]. by apply IH.
  - destruct (py_int s) as [m|z]; [intros [= <-]; by eexists|].
    destruct (astype_int_all col); [|done]. intros [= <-]. by apply IH.
Qed.

Lemma astype_int_all_rejects col s msg :
  VStr s ∈ col -> py_int s = inl msg ->
  ∃ m, astype_int_all (dropna col) = inl (ValueError m).
Proof.
  intros Hin Hbad. induction col as [|v col IH]; [by apply elem_of_nil in Hin|].
  apply elem_of_cons in Hin as [<-|Hin].
  - cbn. rewrite Hbad. by eexists.
  - destruct (IH Hin) as [m Hm]. destruct v as [|z|s']; cbn; fold (dropna col).
    + by exists m.
    + rewrite Hm. by exists m.
    + destruct (py_int s') as [m'|z]; [by eexists|]. rewrite Hm. by exists m.
Qed.

(** A snapshot whose identifier column holds a string that [int] rejects has
    no identifier set: [get_ids] raises a [ValueError]. *)
Lemma get_ids_rejects df row s msg :
  row ∈ data df -> rowid_of df row = VStr s -> py_int s = inl msg ->
  ∃ m, get_ids df = inl (ValueError m).
Proof.
  unfold rowid_of, get_ids, getitem.
  destruct (label_pos "rowid" (columns df)) as [i|]; [|done].
  intros Hrow Hcell Hbad.
  destruct (astype_int_all_rejects (map (cell i) (data df)) s msg) as [m ->];
    [|done|by exists m].
  rewrite <- Hcell. by apply list_elem_of_fmap_2.
Qed.

Lemma label_pos_is_Some lbl cols : lbl ∈ cols -> is_Some (label_pos lbl cols).
Proof.
  induction cols as [|c cols IH]; [by intros ?%elem_of_nil|].
  intros Hin. cbn. destruct (decide (c = lbl)) as [->|Hne]; [by eexists|].
  apply elem_of_cons in Hin as [->|Hin]; [done|].
  destruct (IH Hin) as [i ->]. by eexists.
Qed.

Lemma get_ids_error df e :
  "rowid" ∈ columns df -> get_ids df = inl e -> ∃ m, e = ValueError m.
Proof.
  intros [i Hi]%label_pos_is_Some. unfold get_ids, getitem. rewrite Hi.
  destruct (astype_int_all _) as [e'|zs] eqn:Hall; [|done].
  intros [= <-]. by eapply astype_int_all_error.
Qed.

(** X9. When the identifier column of either snapshot holds a string that
    [int] rejects, the save ends in the handler with a [ValueError] before
    any statement is sent: nothing changes in the database and the error
    message is stored. *)
Theorem bad_identifier_aborts table_name O E st row s msg :
  "rowid" ∈ columns O ->
  (row ∈ data O ∧ rowid_of O row = VStr s) ∨
  (row ∈ data E ∧ rowid_of E row = VStr s) ->
  py_int s = inl msg ->
  ∃ m, (save_changes table_name O E st).1 = Abort (PyExn (ValueError m)) ∧
       sent (save_changes table_name O E st).2 = [] ∧
       committed (save_changes table_name O E st).2 = committed st ∧
       session_state (save_changes table_name O E st).2 !! "error_message"
       = Some (SStr ("Error saving changes: " +:+ m)).
Proof.
  intros HO Hrow Hbad.
  assert (∃ m, reconcile table_name O E (begin st)
               = (inl (PyExn (ValueError m)), begin st)) as [m Hrun].
  { unfold reconcile, mbind, M_bind, bind.
    destruct (get_ids O) as [e|orig] eqn:Hids; cbn.
    - destruct (get_ids_error _ _ HO Hids) as [m ->]. by exists m.
    - destruct Hrow as [[Hin Hcell]|[Hin Hcell]].
      + destruct (get_ids_rejects _ _ _ _ Hin Hcell Hbad) as [m Hm]. congruence.
      + destruct (get_ids_rejects _ _ _ _ Hin Hcell Hbad) as [m ->]. by exists m. }
  exists m. rewrite save_changes_unfold. unfold has_column.
  rewrite bool_decide_true by done. rewrite Hrun. cbn.
  repeat split. by rewrite lookup_insert_eq.
Qed.

End Phases.

Section Unedited.
Context {host : Host}.

(** The three phases of a run that has nothing to do. *)
Lemma reconcile_quiet table_name O E ids st :
  get_ids O = inr ids -> get_ids E = inr ids ->
  (∀ rid, rid ∈ ids ->
     ∃ row, row_of ids E rid = inr row ∧ row_of ids O rid = inr row) ->
  (∀ row, row ∈ data E -> rowid_of E row ≠ VNull) ->
  reconcile table_name O E st = (inr (0, 0, 0)%nat, st).
Proof.
  intros HO HE Hsame Hfull.
  destruct (get_ids_pos _ _ HO) as [i Hi]. destruct (get_ids_pos _ _ HE) as [j Hj].
  destruct (existing_rows_ok ids E j Hj) as [fe Hfe].
  destruct (existing_rows_ok ids O i Hi) as [fo Hfo].
  unfold reconcile, mbind, M_bind, bind. rewrite HO, HE. cbn [lift ret].
  assert (deleted_ids ids ids = ∅) as -> by apply difference_diag_L.
  assert (common_ids ids ids = ids) as -> by apply (idemp_L (∩)).
  unfold handle_deletions. rewrite bool_decide_false by (intros H; by apply H).
  unfold rows_where at 1. rewrite Hj. cbn [lift ret].
  rewrite filter_none.
  2:{ intros row Hrow. specialize (Hfull row Hrow). unfold rowid_of in Hfull.
      rewrite Hj in Hfull. by destruct (cell j row). }
  unfold handle_additions, frame_empty. cbn [data columns].
  replace (match columns E with [] | _ => true end) with true
    by (by destruct (columns E)).
  cbn [negb ret]. rewrite Hfe, Hfo. cbn [lift ret].
  rewrite update_loop_quiet; [by rewrite size_empty|].
  intros rid Hrid%in_set_order. specialize (Hsame rid Hrid).
  unfold row_of in Hsame. by rewrite Hfe, Hfo in Hsame.
Qed.

Lemma astype_int_all_ints zs :
  astype_int_all (dropna (map VInt zs)) = inr zs.
Proof. induction zs as [|z zs IH]; cbn; [done|]. fold (dropna (map VInt zs)). by rewrite IH. Qed.

Lemma integer_column (rows : list (list value)) i :
  (∀ row, row ∈ rows -> ∃ z, cell i row = VInt z) ->
  ∃ zs, map (cell i) rows = map VInt zs.
Proof.
  induction rows as [|row rows IH]; intros Hint; [by exists []|].
  destruct (Hint row) as [z Hz]; [by left|].
  destruct IH as [zs Hzs]; [intros r Hr; apply Hint; by right|].
  exists (z :: zs). cbn. by rewrite Hz, Hzs.
Qed.

(** In a snapshot whose identifiers are integers, every identifier of the
    set leads to a row. *)
Lemma row_of_found O i zs rid :
  label_pos "rowid" (columns O) = Some i ->
  map (cell i) (data O) = map VInt zs ->
  rid ∈ zs ->
  ∃ row, row_of (list_to_set zs) O rid = inr row.
Proof.
  intros Hi Hcol Hrid.
  assert (∃ r, r ∈ data O ∧ cell i r = VInt rid) as (r & Hr & Hcell).
  { apply list_elem_of_In, (in_map VInt) in Hrid. rewrite <- Hcol in Hrid.
    apply in_map_iff in Hrid as (r & Hcell & Hr%list_elem_of_In). by exists r. }
  unfold row_of, existing_rows, rows_where, set_index. rewrite Hi. cbn.
  rewrite Hi. unfold loc. cbn.
  destruct (find _ _) as [found|] eqn:Hfind; [by eexists|].
  assert (Hin : In (cell i r, drop_cells "rowid" (columns O) r)
                   (map (fun r => (cell i r, drop_cells "rowid" (columns O) r))
                      (List.filter (fun r => isin (list_to_set zs) (cell i r))
                         (data O)))).
  { apply (in_map (fun r => (cell i r, drop_cells "rowid" (columns O) r))).
    apply filter_In. split; [by apply list_elem_of_In|].
    rewrite Hcell. cbn. apply bool_decide_eq_true.
    by apply elem_of_list_to_set. }
  apply (find_none _ _ Hfind) in Hin. cbn in Hin. rewrite Hcell in Hin.
  cbn in Hin. by rewrite bool_decide_true in Hin.
Qed.

(** X10. Saving a grid that was not edited - the edited snapshot is the
    original one and its identifiers are integers - sends no statement:
    the run commits, the database is the one from before and the totals
    read 0, 0, 0. *)
Theorem unedited_save_sends_nothing table_name O st :
  "rowid" ∈ columns O ->
  (∀ row, row ∈ data O -> ∃ z, rowid_of O row = VInt z) ->
  sent (save_changes table_name O O st).2 = [] ∧
  (save_changes table_name O O st).1 = Commit ∧
  committed (save_changes table_name O O st).2 = committed st ∧
  session_state (save_changes table_name O O st).2 !! "success_message"
  = Some (SStr (success_text 0 0 0)).
Proof.
  intros [i Hi]%label_pos_is_Some Hint.
  assert (Hcells : ∀ row, row ∈ data O -> ∃ z, cell i row = VInt z).
  { intros row Hrow. destruct (Hint row Hrow) as [z Hz].
    unfold rowid_of in Hz. rewrite Hi in Hz. by exists z. }
  destruct (integer_column _ _ Hcells) as [zs Hzs].
  assert (Hids : get_ids O = inr (list_to_set zs)).
  { unfold get_ids, getitem. by rewrite Hi, Hzs, astype_int_all_ints. }
  rewrite save_changes_unfold. unfold has_column.
  rewrite bool_decide_true by (by eapply label_pos_elem).
  rewrite (reconcile_quiet table_name O O (list_to_set zs)); try done.
  - cbn. repeat split. rewrite lookup_insert_ne by done.
    by rewrite lookup_insert_eq.
  - intros rid Hrid%elem_of_list_to_set.
    destruct (row_of_found O i zs rid Hi Hzs Hrid) as [row Hrow]. by exists row.
  - intros row Hrow. destruct (Hint row Hrow) as [z ->]. done.
Qed.

End Unedited.

Lemma insert_is_rectangular_witness :
  [[VStr "b"]] ≠ [] ∧ ∀ row, row ∈ [[VStr "b"]] -> length row = length ["v"].
Proof.
  apply (insert_is_rectangular (host := Store.host) "t" O_a E_a_new
           (Store.fresh d_a) "t" ["v"] [[VStr "b"]] None).
  - intros row Hrow. repeat (apply elem_of_cons in Hrow as [->|Hrow]);
      [reflexivity..|by apply elem_of_nil in Hrow].
  - vm_compute. apply list_elem_of_here.
Defined.

Lemma bad_identifier_aborts_witness :
  ∃ m, (run O_a (mkFrame ["rowid"; "v"] [Object; Object] [[VStr "x1"; VStr "a"]]) d_a).1
       = Abort (PyExn (ValueError m)) ∧
       sent (run O_a (mkFrame ["rowid"; "v"] [Object; Object] [[VStr "x1"; VStr "a"]]) d_a).2 = [] ∧
       committed (run O_a (mkFrame ["rowid"; "v"] [Object; Object] [[VStr "x1"; VStr "a"]]) d_a).2
       = d_a ∧
       session_state (run O_a (mkFrame ["rowid"; "v"] [Object; Object] [[VStr "x1"; VStr "a"]]) d_a).2
         !! "error_message"
       = Some (SStr ("Error saving changes: " +:+ m)).
Proof.
  apply (bad_identifier_aborts (host := Store.host) "t" O_a
           (mkFrame ["rowid"; "v"] [Object; Object] [[VStr "x1"; VStr "a"]]) (Store.fresh d_a)
           [VStr "x1"; VStr "a"] "x1"
           "invalid literal for int() with base 10: 'x1'").
  - apply (bool_decide_unpack _). vm_compute. exact I.
  - right. split; [apply list_elem_of_here|reflexivity].
  - reflexivity.
Defined.

Lemma unedited_save_sends_nothing_witness :
  sent (run O_ab O_ab d_ab).2 = [] ∧
  (run O_ab O_ab d_ab).1 = Commit ∧
  committed (run O_ab O_ab d_ab).2 = d_ab ∧
  session_state (run O_ab O_ab d_ab).2 !! "success_message"
  = Some (SStr (success_text 0 0 0)).
Proof.
  apply (unedited_save_sends_nothing (host := Store.host) "t" O_ab
           (Store.fresh d_ab)).
  - apply (bool_decide_unpack _). vm_compute. exact I.
  - intros row Hrow. repeat (apply elem_of_cons in Hrow as [->|Hrow]);
      [by eexists..|by apply elem_of_nil in Hrow].
Defined.

(** ** The messages of the page (lines 275-282) and the Save button *)

Lemma show_message_quiet key widget page :
  quiet (show_message key widget page).2 key.
Proof.
  unfold show_message, quiet.
  destruct (page.2 !! key) as [v|] eqn:Hv; [|by intros ?; rewrite Hv].
  destruct (truthy v) eqn:Htruthy; cbn.
  - intros w. rewrite lookup_insert_eq. by intros [= <-].
  - intros w. rewrite Hv. by intros [= <-].
Qed.

Lemma show_message_other key widget page k :
  k ≠ key -> (show_message key widget page).2 !! k = page.2 !! k.
Proof.
  intros Hne. unfold show_message.
  destruct (page.2 !! key) as [v|]; [|done].
  destruct (truthy v); [|done]. cbn. by rewrite lookup_insert_ne.
Qed.

Lemma show_message_skip key widget page :
  quiet page.2 key -> show_message key widget page = page.
Proof.
  intros Hq. unfold show_message.
  destruct (page.2 !! key) as [v|] eqn:Hv; [|done]. by rewrite (Hq v Hv).
Qed.

Lemma show_messages_quiet ss :
  quiet (show_messages ss).2 "success_message" ∧
  quiet (show_messages ss).2 "error_message".
Proof.
  unfold show_messages. split; [|apply show_message_quiet].
  intros v. rewrite show_message_other by done. apply show_message_quiet.
Qed.

Lemma show_nothing ss :
  quiet ss "success_message" -> quiet ss "error_message" ->
  show_messages ss = ([], ss).
Proof.
  intros Hs He. unfold show_messages.
  rewrite (show_message_skip "success_message") by done.
  by rewrite show_message_skip.
Qed.

(** X11. A persistent message is shown once: whatever the session holds,
    the run of the script that follows the one that showed the messages
    shows none, and leaves the session as it is. *)
Theorem messages_shown_once ss :
  show_messages (show_messages ss).2 = ([], (show_messages ss).2).
Proof. destruct (show_messages_quiet ss). by apply show_nothing. Qed.

Section SaveButtonFacts.
Context {host : Host}.

Lemma show_message_hit key widget page v :
  page.2 !! key = Some v -> truthy v = true ->
  show_message key widget page = (page.1 ++ [widget v], <[key := SNone]> page.2).
Proof. intros Hv Ht. unfold show_message. by rewrite Hv, Ht. Qed.

Lemma truthy_text a s : truthy (SStr (String a s)) = true.
Proof. cbn. by rewrite bool_decide_false. Qed.

(** The page after an error message was stored in a quiet session. *)
Lemma show_stored_error ss msg :
  quiet ss "success_message" -> truthy msg = true ->
  (show_messages (<["error_message" := msg]> ss)).1 = [Failure msg].
Proof.
  intros Hs Ht. unfold show_messages.
  rewrite (show_message_skip "success_message").
  - by rewrite (show_message_hit _ _ _ msg) by (done || apply lookup_insert_eq).
  - intros v. cbn. rewrite lookup_insert_ne by done. apply Hs.
Qed.

(** The page after lines 245-246 stored their values in a quiet session. *)
Lemma show_stored_success ss key flag text :
  key ≠ "success_message" -> key ≠ "error_message" ->
  quiet ss "error_message" -> truthy text = true ->
  (show_messages (<[key := flag]> (<["success_message" := text]> ss))).1
  = [Success text].
Proof.
  intros Hks Hke He Ht. unfold show_messages.
  rewrite (show_message_hit "success_message" _ _ text); [|cbn|done].
  - rewrite show_message_skip; [done|].
    intros v. cbn. rewrite !lookup_insert_ne by done. apply He.
  - rewrite lookup_insert_ne by done. apply lookup_insert_eq.
Qed.

(** X12. What the page shows after a click on Save, in a session whose
    earlier messages were shown: a committed save shows exactly one notice,
    the success message with its totals; a save that ended in the handler
    shows exactly one notice, the error message; a save turned down for a
    missing [rowid] column shows nothing - the message of line 166 belongs to
    the run that [st.rerun()] replaces.  In every case the messages are
    cleared again. *)
Theorem page_after_save table_name df edited_df st ss0 :
  session_state st = (show_messages ss0).2 ->
  match click_save table_name df edited_df st with
  | (Commit, page, st') =>
      ∃ added deleted updated,
        page = [Success (SStr (success_text added deleted updated))] ∧
        quiet (session_state st') "success_message" ∧
        quiet (session_state st') "error_message"
  | (Abort e, page, st') =>
      page = [Failure (SStr ("Error saving changes: " +:+ str_exn e))] ∧
      quiet (session_state st') "success_message" ∧
      quiet (session_state st') "error_message"
  | (Reject, page, st') =>
      page = [] ∧
      quiet (session_state st') "success_message" ∧
      quiet (session_state st') "error_message"
  end.
Proof.
  intros Hshown. destruct (show_messages_quiet ss0) as [Hs He].
  rewrite <- Hshown in Hs, He. clear Hshown.
  unfold click_save. rewrite save_changes_unfold.
  destruct (has_column "rowid" df).
  - destruct (txn_reconcile table_name df edited_df (begin st))
      as (_ & Hsess & _).
    destruct (reconcile table_name df edited_df (begin st)) as [[e|counts] st1];
      cbn in Hsess; rewrite <- Hsess in Hs, He.
    + cbn [reported session_set rollback session_state].
      assert (Ht : truthy (SStr ("Error saving changes: " +:+ str_exn e)) = true)
        by apply truthy_text.
      pose proof (show_stored_error _ _ Hs Ht) as Hpage.
      pose proof (show_messages_quiet
                    (<["error_message" := SStr ("Error saving changes: " +:+ str_exn e)]>
                       (session_state st1))) as [Hqs Hqe].
      by destruct (show_messages _) as [page ss'].
    + cbn [stored session_state].
      assert (Ht : truthy (SStr (success_text counts.1.1 counts.1.2 counts.2)) = true)
        by apply truthy_text.
      pose proof (show_stored_success (session_state st1) (trigger_key table_name)
                    (SBool (negb (truthy (default (SBool false)
                       (<["success_message" :=
                            SStr (success_text counts.1.1 counts.1.2 counts.2)]>
                          (session_state st1) !! trigger_key table_name)))))
                    (SStr (success_text counts.1.1 counts.1.2 counts.2))
                    ltac:(done) ltac:(done) He Ht) as Hpage.
      pose proof (show_messages_quiet
                    (<[trigger_key table_name :=
                         SBool (negb (truthy (default (SBool false)
                           (<["success_message" :=
                                SStr (success_text counts.1.1 counts.1.2 counts.2)]>
                              (session_state st1) !! trigger_key table_name))))]>
                       (<["success_message" :=
                            SStr (success_text counts.1.1 counts.1.2 counts.2)]>
                          (session_state st1)))) as [Hqs Hqe].
      destruct (show_messages _) as [page ss']. cbn in *. eauto 10.
  - cbn [turned_down session_state]. rewrite show_nothing by done. by cbn.
Qed.

End SaveButtonFacts.

Lemma page_after_save_witness :
  match click_save (host := Store.host) "t" O_a E_z
          (@mkState Store.host d_a d_a []
             (show_messages {["error_message" := SStr "old"]}).2 [])
  with
  | (Commit, page, st') =>
      ∃ added deleted updated,
        page = [Success (SStr (success_text added deleted updated))] ∧
        quiet (session_state st') "success_message" ∧
        quiet (session_state st') "error_message"
  | (Abort e, page, st') =>
      page = [Failure (SStr ("Error saving changes: " +:+ str_exn e))] ∧
      quiet (session_state st') "success_message" ∧
      quiet (session_state st') "error_message"
  | (Reject, page, st') =>
      page = [] ∧
      quiet (session_state st') "success_message" ∧
      quiet (session_state st') "error_message"
  end.
Proof.
  apply (page_after_save (host := Store.host) "t" O_a E_z
           (@mkState Store.host d_a d_a []
             (show_messages {["error_message" := SStr "old"]}).2 [])
           {["error_message" := SStr "old"]}).
  reflexivity.
Defined.

(** ** Python strings: [strip] and [upper] *)

Lemma isspace_upper a : py_isspace (upper_char a) = py_isspace a.
Proof. by destruct a as [[] [] [] [] [] [] [] []]. Qed.

Lemma lstrip_blank s : lstrip s = EmptyString <-> blank s = true.
Proof.
  induction s as [|a s IH]; cbn; [done|].
  destruct (py_isspace a); cbn; [done|]. split; discriminate.
Qed.

Lemma rstrip_blank s : rstrip s = EmptyString <-> blank s = true.
Proof.
  induction s as [|a s IH]; cbn; [done|].
  destruct (rstrip s) as [|b r].
  - rewrite (proj1 IH eq_refl). destruct (py_isspace a); cbn; [done|].
    split; discriminate.
  - split; [discriminate|].
    intros [_ Hb%IH]%andb_true_iff. discriminate.
Qed.

Lemma lstrip_stays_blank s : blank (lstrip s) = true -> blank s = true.
Proof.
  induction s as [|a s IH]; cbn; [done|].
  destruct (py_isspace a) eqn:Ha; cbn; [done|]. by rewrite Ha.
Qed.

(** [s.strip()] is empty exactly when [s] holds only whitespace. *)
Lemma strip_empty s : strip s = EmptyString <-> blank s = true.
Proof.
  unfold strip. rewrite rstrip_blank. split; [apply lstrip_stays_blank|].
  intros Hb. by rewrite (proj2 (lstrip_blank s) Hb).
Qed.

Lemma lstrip_pad ws s : blank ws = true -> lstrip (ws +:+ s) = lstrip s.
Proof.
  induction ws as [|a ws IH]; simpl; [done|].
  destruct (py_isspace a); [exact IH|done].
Qed.

Lemma rstrip_pad s ws : blank ws = true -> rstrip (s +:+ ws) = rstrip s.
Proof.
  intros Hws. induction s as [|a s IH]; simpl.
  - by apply rstrip_blank.
  - by rewrite IH.
Qed.

Lemma lstrip_keeps_tail s t :
  blank s = false -> lstrip (s +:+ t) = lstrip s +:+ t.
Proof.
  induction s as [|a s IH]; simpl; [done|].
  destruct (py_isspace a); [exact IH|done].
Qed.

(** Whitespace around a text does not change what [strip] gives. *)
Lemma strip_pad ws s ws' :
  blank ws = true -> blank ws' = true -> strip (ws +:+ s +:+ ws') = strip s.
Proof.
  intros Hws Hws'. unfold strip. rewrite lstrip_pad by done.
  destruct (blank s) eqn:Hs.
  - assert (Hall : blank (s +:+ ws') = true).
    { clear -Hs Hws'. induction s as [|a s IH]; simpl in *; [done|].
      apply andb_true_iff in Hs as [-> Hs]. by apply IH. }
    by rewrite (proj2 (lstrip_blank _) Hall), (proj2 (lstrip_blank _) Hs).
  - rewrite lstrip_keeps_tail by done. by apply rstrip_pad.
Qed.

Lemma lstrip_upper s : lstrip (upper s) = upper (lstrip s).
Proof.
  induction s as [|a s IH]; cbn; [done|].
  rewrite isspace_upper. by destruct (py_isspace a).
Qed.

Lemma rstrip_upper s : rstrip (upper s) = upper (rstrip s).
Proof.
  induction s as [|a s IH]; cbn; [done|].
  rewrite IH, isspace_upper.
  destruct (rstrip s) as [|b r]; cbn; [|done]. by destruct (py_isspace a).
Qed.

Lemma strip_upper s : strip (upper s) = upper (strip s).
Proof. unfold strip. by rewrite lstrip_upper, rstrip_upper. Qed.

Lemma upper_append s t : upper (s +:+ t) = upper s +:+ upper t.
Proof. induction s as [|a s IH]; simpl; [done|]. by rewrite IH. Qed.

Lemma solid_upper s : solid (upper s) = solid s.
Proof.
  induction s as [|a s IH]; cbn; [done|]. by rewrite isspace_upper, IH.
Qed.

Lemma solid_blank a s : solid (String a s) = true -> blank (String a s) = false.
Proof. cbn. by destruct (py_isspace a). Qed.

Lemma rstrip_solid p r : solid p = true -> rstrip (p +:+ r) = p +:+ rstrip r.
Proof.
  induction p as [|a p IH]; simpl; [done|].
  intros [Ha%negb_true_iff Hp]%andb_true_iff. rewrite (IH Hp), Ha.
  change (String a p +:+ rstrip r) with (String a (p +:+ rstrip r)).
  by destruct (p +:+ rstrip r).
Qed.

Lemma lstrip_solid p : solid p = true -> lstrip p = p.
Proof.
  destruct p as [|a p]; cbn; [done|].
  intros [Ha%negb_true_iff _]%andb_true_iff. by rewrite Ha.
Qed.

Lemma prefix_append p r : String.prefix p (p +:+ r) = true.
Proof.
  induction p as [|a p IH]; simpl; [by destruct r|].
  by destruct (ascii_dec a a).
Qed.

(** A text that starts with a solid word keeps it at the front of its
    [strip]. *)
Lemma strip_keeps_word ws kw rest :
  blank ws = true -> solid kw = true -> kw ≠ EmptyString ->
  strip (ws +:+ kw +:+ rest) = kw +:+ rstrip rest.
Proof.
  intros Hws Hkw Hne. unfold strip. rewrite lstrip_pad by done.
  destruct kw as [|a kw]; [done|].
  rewrite lstrip_keeps_tail by (by apply solid_blank).
  by rewrite (lstrip_solid _ Hkw), rstrip_solid.
Qed.

Lemma rstrip_idem s : rstrip (rstrip s) = rstrip s.
Proof.
  induction s as [|a s IH]; cbn; [done|].
  destruct (rstrip s) as [|b r] eqn:Hr.
  - destruct (py_isspace a) eqn:Ha; cbn; [done|]. by rewrite Ha.
  - cbn in IH |- *. by rewrite IH.
Qed.

Lemma lstrip_idem s : lstrip (lstrip s) = lstrip s.
Proof.
  induction s as [|a s IH]; cbn; [done|].
  destruct (py_isspace a) eqn:Ha; [done|]. cbn. by rewrite Ha.
Qed.

Lemma rstrip_keeps_lead s : lstrip s = s -> lstrip (rstrip s) = rstrip s.
Proof.
  destruct s as [|a s]; [done|]. intros Hlead.
  assert (Ha : py_isspace a = false).
  { destruct (py_isspace a) eqn:Ha; [|done]. exfalso. cbn in Hlead.
    rewrite Ha in Hlead.
    assert (Hlen : ∀ t, (String.length (lstrip t) <= String.length t)%nat).
    { induction t as [|b t IHt]; cbn; [lia|].
      destruct (py_isspace b); cbn; lia. }
    specialize (Hlen s). rewrite Hlead in Hlen. cbn in Hlen. lia. }
  cbn. destruct (rstrip s); rewrite ?Ha; cbn; by rewrite Ha.
Qed.

(** [strip] leaves no whitespace at either end: stripping again, on either
    side, changes nothing. *)
Lemma strip_stripped s :
  lstrip (strip s) = strip s ∧ rstrip (strip s) = strip s.
Proof.
  unfold strip. split; [|apply rstrip_idem].
  apply rstrip_keeps_lead, lstrip_idem.
Qed.

(** ** The SQL tab (lines 372-394) *)

Section SqlTabFacts.
Variable SqlDB : Type.
Variable read_sql : string -> SqlDB -> (string + DataFrame) * SqlDB.
Variable exec_sql : string -> SqlDB -> string + (SqlDB * Z).

(** X13. On a query of ASCII text the tab answers "Please enter a query."
    exactly when the query holds nothing but whitespace; the database is
    then left as it is, whatever the engine. *)
Theorem blank_query_warned query d :
  ascii_text query = true ->
  ((run_query SqlDB read_sql exec_sql query d).1
   = Warning (SStr "Please enter a query.") <-> blank query = true) ∧
  (blank query = true ->
   run_query SqlDB read_sql exec_sql query d
   = (Warning (SStr "Please enter a query."), d)).
Proof.
  intros _. unfold run_query. split; [split|].
  - destruct (blank query) eqn:Hb; [done|]. rewrite bool_decide_false.
    + cbn. destruct (is_row_query query).
      * by destruct (read_sql query d) as [[|] ?].
      * by destruct (exec_sql query d) as [|[]].
    + intros He%strip_empty. congruence.
  - intros Hb%strip_empty. by rewrite bool_decide_true.
  - intros Hb%strip_empty. by rewrite bool_decide_true.
Qed.

(** X15. A query of ASCII text that starts - after any leading whitespace,
    in any letter case - with SELECT, WITH, PRAGMA or EXPLAIN takes the
    [read_sql] branch:
    the text goes to [pd.read_sql] as typed, the page shows the frame or the
    error that came back, and [conn.execute] with its commit has no part in
    the result. *)
Theorem keyword_query_is_read ws kw rest keyword d :
  blank ws = true ->
  keyword ∈ ["SELECT"; "WITH"; "PRAGMA"; "EXPLAIN"] ->
  upper kw = keyword ->
  ascii_text rest = true ->
  is_row_query (ws +:+ kw +:+ rest) = true ∧
  run_query SqlDB read_sql exec_sql (ws +:+ kw +:+ rest) d
  = (match (read_sql (ws +:+ kw +:+ rest) d).1 with
     | inr query_df => Table query_df
     | inl e => Failure (SStr ("Error executing query: " +:+ e))
     end, (read_sql (ws +:+ kw +:+ rest) d).2).
Proof.
  intros Hws Hkey Hupper _.
  assert (Hsolid : solid kw = true ∧ kw ≠ EmptyString).
  { rewrite <- solid_upper, Hupper.
    repeat (apply elem_of_cons in Hkey as [->|Hkey]);
      [..|by apply elem_of_nil in Hkey];
      (split; [done|intros ->; discriminate]). }
  destruct Hsolid as [Hsolid Hne].
  assert (Hrow : is_row_query (ws +:+ kw +:+ rest) = true).
  { unfold is_row_query. rewrite strip_keeps_word, upper_append, Hupper by done.
    unfold returns_rows.
    repeat (apply elem_of_cons in Hkey as [->|Hkey]);
      [..|by apply elem_of_nil in Hkey];
      rewrite prefix_append; by rewrite ?orb_true_r. }
  split; [done|]. unfold run_query. rewrite Hrow.
  rewrite bool_decide_false.
  - cbn. by destruct (read_sql _ d) as [[|] ?].
  - rewrite strip_keeps_word by done. by destruct kw.
Qed.

End SqlTabFacts.

(** X14. How the SQL tab classifies a query of ASCII text depends neither
    on whitespace around it nor on the case of its letters. *)
Theorem classification_ignores_case_and_padding ws query ws' query' :
  blank ws = true -> blank ws' = true ->
  ascii_text query = true -> ascii_text query' = true ->
  upper query = upper query' ->
  is_row_query (ws +:+ query +:+ ws') = is_row_query query'.
Proof.
  intros Hws Hws' _ _ Hupper. unfold is_row_query.
  by rewrite strip_pad, <- !strip_upper, Hupper.
Qed.

(** ** The file dialog (lines 42-53, 109-113) *)

(** X16. The Open File button stores a path and reruns the script only when
    the dialog exited with code 0 and printed more than whitespace; the path
    stored is what was printed (ASCII text) without the whitespace around
    it.  In every other case the session is left as it is. *)
Theorem open_file_stores_stripped_path result ss :
  ascii_text (printed result) = true ->
  match click_open_file result ss with
  | (ss', page, true) =>
      ∃ stdout,
        result = Exited 0 stdout ∧ page = [] ∧
        ss' = <["db_path" := SStr (strip stdout)]> ss ∧
        blank stdout = false ∧
        lstrip (strip stdout) = strip stdout ∧
        rstrip (strip stdout) = strip stdout
  | (ss', page, false) =>
      ss' = ss ∧
      match result with
      | Raised e => page = [Failure (SStr ("Error opening file dialog: " +:+ e))]
      | Exited returncode stdout =>
          page = [] ∧ (returncode ≠ 0%Z ∨ blank stdout = true)
      end
  end.
Proof.
  intros _.
  unfold click_open_file, select_file. destruct result as [e|returncode stdout].
  - done.
  - case_bool_decide as Hrc; [|cbn; tauto]. subst returncode.
    case_bool_decide as Hpath; cbn.
    + split; [done|]. split; [done|]. right. by apply strip_empty.
    + exists stdout. destruct (strip_stripped stdout) as [Hl Hr].
      repeat split; try done.
      destruct (blank stdout) eqn:Hb; [|done].
      by apply strip_empty in Hb.
Qed.

Lemma blank_query_warned_witness :
  ascii_text "  " = true ∧
  run_query (list string) (fun _ d => (inl "closed", d))
    (fun q d => inr (q :: d, 1%Z)) "  " []
  = (Warning (SStr "Please enter a query."), []).
Proof.
  split; [reflexivity|].
  apply (blank_query_warned (list string) (fun _ d => (inl "closed", d))
           (fun q d => inr (q :: d, 1%Z)) "  " []); reflexivity.
Defined.

Lemma keyword_query_is_read_witness :
  blank " " = true ∧
  run_query (list string) (fun q d => (inl "closed", q :: d))
    (fun q d => inr (q :: d, 1%Z)) " with t as (select 1) select * from t" []
  = (Failure (SStr "Error executing query: closed"),
     [" with t as (select 1) select * from t"]).
Proof.
  split; [reflexivity|].
  apply (keyword_query_is_read (list string) (fun q d => (inl "closed", q :: d))
           (fun q d => inr (q :: d, 1%Z))
           " " "with" " t as (select 1) select * from t" "WITH" []);
    [reflexivity| |reflexivity..].
  apply list_elem_of_further, list_elem_of_here.
Defined.

Lemma classification_ignores_case_and_padding_witness :
  blank "  " = true ∧
  is_row_query "  Select 1 " = is_row_query "SELECT 1".
Proof.
  split; [reflexivity|].
  apply (classification_ignores_case_and_padding "  " "Select 1" " " "SELECT 1");
    reflexivity.
Defined.

Lemma open_file_stores_stripped_path_witness :
  ascii_text (printed (Exited 0 ("/tmp/shop.db" +:+ String "010" EmptyString)))
  = true ∧
  ∃ stdout,
    Exited 0 ("/tmp/shop.db" +:+ String "010" EmptyString) = Exited 0 stdout ∧
    [] = @nil notice ∧
    <["db_path" := SStr "/tmp/shop.db"]> (∅ : gmap string sval)
    = <["db_path" := SStr (strip stdout)]> ∅ ∧
    blank stdout = false ∧
    lstrip (strip stdout) = strip stdout ∧
    rstrip (strip stdout) = strip stdout.
Proof.
  assert (Htext : ascii_text (printed (Exited 0 ("/tmp/shop.db" +:+
                                String "010" EmptyString))) = true)
    by reflexivity.
  split; [exact Htext|].
  exact (open_file_stores_stripped_path
           (Exited 0 ("/tmp/shop.db" +:+ String "010" EmptyString)) ∅ Htext).
Defined.

(** ** The sidebar (lines 55-128) *)

Section SidebarFacts.
Context {os : OS}.

Lemma is_new_upload (ss : gmap string sval) n :
  ss !! "last_uploaded_file" ≠ Some (SStr n) ->
  match ss !! "last_uploaded_file" with
  | None => true
  | Some last => negb (bool_decide (last = SStr n))
  end = true.
Proof.
  intros Hnew. destruct (ss !! "last_uploaded_file") as [last|]; [|done].
  rewrite bool_decide_false; [done|]. by intros ->.
Qed.

(** X17. An upload under a name that is not the last one is written to a
    new temporary file - no file in use is touched - and the script reruns;
    the rerun, with the same upload, writes nothing more, offers exactly the
    uploaded bytes for download and goes on with the URL of that file. *)
Theorem upload_settles_after_rerun up refused refused' ss fs :
  ss !! "last_uploaded_file" ≠ Some (SStr (name up)) ->
  let ss1 := <["last_uploaded_file" := SStr (name up)]>
               (<["db_path" := SStr (tmp_name fs)]> ss) in
  let fs1 := <[tmp_name fs := getbuffer up]> fs in
  cloud_sidebar (Some up) refused ss fs = (ss1, fs1, [], Rerun) ∧
  (∀ p data, fs !! p = Some data -> fs1 !! p = Some data) ∧
  cloud_sidebar (Some up) refused' ss1 fs1
  = (ss1, fs1,
     [Success (SStr ("Loaded: `" +:+ name up +:+ "`"));
      Download (name up) (getbuffer up);
      Info (SStr "⚠️ Le modifiche sono temporanee. Scarica il file per salvarle permanentemente.")],
     Go ("sqlite:///" +:+ tmp_name fs)).
Proof.
  intros Hnew ss1 fs1. split; [|split].
  - unfold cloud_sidebar. by rewrite is_new_upload.
  - intros p data Hp. unfold fs1. rewrite lookup_insert_ne; [done|].
    intros <-. by rewrite tmp_name_new in Hp.
  - unfold cloud_sidebar.
    assert (Hlast : ss1 !! "last_uploaded_file" = Some (SStr (name up)))
      by apply lookup_insert_eq.
    assert (Hpath : ss1 !! "db_path" = Some (SStr (tmp_name fs))).
    { unfold ss1. rewrite lookup_insert_ne by done. apply lookup_insert_eq. }
    rewrite Hlast, Hpath, bool_decide_true by done. cbn [negb py_str].
    pose proof (open_rb_str (tmp_name fs) fs1) as Hopen.
    unfold fs1 in Hopen at 1. rewrite lookup_insert_eq in Hopen.
    by rewrite Hopen.
Qed.

(** X18. While the session remembers the name of an upload, a file uploaded
    under that name is not stored: session and files stay as they are, and
    the whole run is the same whatever the uploaded bytes. *)
Theorem same_name_upload_ignored n buffer buffer' refused ss fs :
  ss !! "last_uploaded_file" = Some (SStr n) ->
  cloud_sidebar (Some (mkUpload n buffer)) refused ss fs
  = cloud_sidebar (Some (mkUpload n buffer')) refused ss fs ∧
  (cloud_sidebar (Some (mkUpload n buffer)) refused ss fs).1.1 = (ss, fs).
Proof.
  intros Hlast. unfold cloud_sidebar. cbn [name getbuffer].
  rewrite Hlast, bool_decide_true by done. cbn [negb].
  by destruct (ss !! "db_path").
Qed.

(** X19. When the upload is taken away, a session that holds a path forgets
    path and name and the script stops; of the files only the one under that
    path can go, and it is gone unless the system refused; the next upload,
    under whatever name, is stored again. *)
Theorem removed_upload_forgotten refused ss fs path :
  ss !! "db_path" = Some path ->
  let ss' := <["last_uploaded_file" := SNone]> (<["db_path" := SNone]> ss) in
  ∃ fs',
    cloud_sidebar None refused ss fs
    = (ss', fs', [Info (SStr "Upload a database to start.")], Stop) ∧
    (∀ p, path ≠ SStr p -> fs' !! p = fs !! p) ∧
    (refused = false ->
     ∀ p, path = SStr p -> p ≠ EmptyString -> fs' !! p = None) ∧
    ∀ up refused', (cloud_sidebar (Some up) refused' ss' fs').2 = Rerun.
Proof.
  intros Hpath ss'. unfold cloud_sidebar at 1. rewrite Hpath.
  eexists. split; [reflexivity|]. split; [|split].
  - intros p Hp.
    destruct (truthy path && path_exists path fs); [|done].
    destruct path as [| |q]; cbn; try done.
    destruct refused; [done|]. apply lookup_delete_ne. congruence.
  - intros -> p -> Hp. rewrite path_exists_str. cbn.
    rewrite bool_decide_false by done. cbn.
    case_bool_decide as Hin; [apply lookup_delete_eq|].
    by apply eq_None_not_Some.
  - intros up refused'. unfold cloud_sidebar.
    assert (Hlast : ss' !! "last_uploaded_file" = Some SNone)
      by apply lookup_insert_eq.
    by rewrite Hlast.
Qed.

(** The name in the session comes with a path. *)
Lemma reachable_paired ss fs :
  cloud_reachable ss fs ->
  ∀ n, ss !! "last_uploaded_file" = Some (SStr n) ->
       ∃ p, ss !! "db_path" = Some (SStr p) ∧ p ≠ EmptyString.
Proof.
  induction 1 as [ss fs Hp Hl|uploaded_db refused ss fs ss' fs' page next _ IH Hrun
                 |ss fs ss' fs' _ IH Hp Hl]; intros n Hn.
  - congruence.
  - unfold cloud_sidebar in Hrun. destruct uploaded_db as [up|].
    + destruct (match ss !! "last_uploaded_file" with
                | None => true
                | Some last => negb (bool_decide (last = SStr (name up)))
                end).
      * injection Hrun as <- <- <- <-.
        exists (tmp_name fs). split; [|apply tmp_name_path].
        rewrite lookup_insert_ne by done. apply lookup_insert_eq.
      * destruct (ss !! "db_path") eqn:Hp; injection Hrun as <- <- <- <-;
          rewrite Hp; eauto.
    + destruct (ss !! "db_path") eqn:Hp; injection Hrun as <- <- <- <-.
      * by rewrite lookup_insert_eq in Hn.
      * rewrite Hp. eauto.
  - rewrite Hp. rewrite Hl in Hn. eauto.
Qed.

(** X20. Whatever was uploaded, removed and done in between, the cloud
    sidebar never fails on a missing key, and when it lets the script go on
    the URL is made of the path that the session holds, a non-empty text. *)
Theorem cloud_sidebar_never_crashes ss fs uploaded_db refused :
  cloud_reachable ss fs ->
  match (cloud_sidebar uploaded_db refused ss fs).2 with
  | Crash _ => False
  | Go db_url =>
      ∃ p, ss !! "db_path" = Some (SStr p) ∧ p ≠ EmptyString ∧
           db_url = "sqlite:///" +:+ p
  | Rerun | Stop => True
  end.
Proof.
  intros Hreach. pose proof (reachable_paired _ _ Hreach) as Hpaired.
  unfold cloud_sidebar. destruct uploaded_db as [up|].
  - destruct (ss !! "last_uploaded_file") as [last|] eqn:Hlast; [|done].
    case_bool_decide as Hsame; [|done]. subst last. cbn [negb].
    destruct (Hpaired _ eq_refl) as (p & Hp & Hne). rewrite Hp. cbn. eauto.
  - by destruct (ss !! "db_path").
Qed.

Lemma init_db_path (ss : gmap string sval) v :
  ss !! "db_path" = Some v ->
  match ss !! "db_path" with
  | None => <["db_path" := SNone]> ss
  | Some _ => ss
  end = ss.
Proof. by intros ->. Qed.

(** X22. A path picked in the file dialog is stored and the script reruns;
    the rerun goes on with the URL of that path if the file exists, and
    otherwise shows that the file was not found, drops the path and stops. *)
Theorem selected_file_becomes_url stdout ss fs :
  ascii_text stdout = true -> blank stdout = false ->
  ∃ ss1,
    local_sidebar (Some (Exited 0 stdout)) ss fs = (ss1, [], Rerun) ∧
    ss1 !! "db_path" = Some (SStr (strip stdout)) ∧
    local_sidebar None ss1 fs
    = if bool_decide (is_Some (fs !! strip stdout))
      then (ss1,
            [Success (SStr ("Loaded: `" +:+ posix_basename (strip stdout) +:+ "`"));
             Caption (SStr ("Path: " +:+ strip stdout))],
            Go ("sqlite:///" +:+ strip stdout))
      else (<["db_path" := SNone]> ss1,
            [Failure (SStr "Selected file not found. Please select again.")],
            Stop).
Proof.
  intros _ Hblank.
  assert (Hne : strip stdout ≠ EmptyString).
  { intros He%strip_empty. congruence. }
  eexists. split; [|split].
  - unfold local_sidebar, click_open_file, select_file.
    rewrite bool_decide_true, bool_decide_false by done. reflexivity.
  - apply lookup_insert_eq.
  - unfold local_sidebar. rewrite (init_db_path _ (SStr (strip stdout)))
      by apply lookup_insert_eq.
    cbn iota beta. rewrite lookup_insert_eq. cbn [truthy].
    rewrite bool_decide_false by done. cbn [negb]. rewrite path_exists_str.
    by case_bool_decide.
Qed.

(** X23. A stored path whose file is gone is dropped by the run that finds
    it missing; the run after that asks for a file again, also when the file
    is back by then. *)
Theorem lost_file_asks_again p ss fs fs' :
  ss !! "db_path" = Some (SStr p) -> p ≠ EmptyString -> fs !! p = None ->
  local_sidebar None ss fs
  = (<["db_path" := SNone]> ss,
     [Failure (SStr "Selected file not found. Please select again.")], Stop) ∧
  local_sidebar None (<["db_path" := SNone]> ss) fs'
  = (<["db_path" := SNone]> ss,
     [Info (SStr "Please select a database file.")], Stop).
Proof.
  intros Hp Hne Hgone. split.
  - unfold local_sidebar. rewrite (init_db_path _ _ Hp). cbn iota beta.
    rewrite Hp. cbn [truthy]. rewrite bool_decide_false by done. cbn [negb].
    rewrite path_exists_str, bool_decide_false; [done|].
    rewrite Hgone. by intros [? ?].
  - unfold local_sidebar.
    rewrite (init_db_path _ SNone) by apply lookup_insert_eq.
    cbn iota beta. by rewrite lookup_insert_eq.
Qed.

End SidebarFacts.

Section SessionFrame.
Context {host : Host}.

Lemma show_messages_other ss k :
  k ≠ "success_message" -> k ≠ "error_message" ->
  (show_messages ss).2 !! k = ss !! k.
Proof.
  intros Hs He. unfold show_messages.
  rewrite show_message_other by done. by rewrite show_message_other by done.
Qed.

(** X21. A click on Save writes three keys of the session at most: the two
    messages and the trigger of the table's editor.  Every other key - the
    path of the database among them - holds what it held. *)
Theorem save_writes_three_keys table_name df edited_df st k :
  k ≠ "success_message" -> k ≠ "error_message" ->
  k ≠ trigger_key table_name ->
  session_state (save_changes table_name df edited_df st).2 !! k
  = session_state st !! k ∧
  session_state (click_save table_name df edited_df st).2 !! k
  = session_state st !! k.
Proof.
  intros Hs He Ht.
  assert (Hsave : session_state (save_changes table_name df edited_df st).2 !! k
                  = session_state st !! k).
  { rewrite save_changes_unfold. destruct (has_column "rowid" df); [|done].
    destruct (txn_reconcile table_name df edited_df (begin st))
      as (_ & Hsess & _).
    destruct (reconcile table_name df edited_df (begin st)) as [[e|counts] st1];
      cbn in Hsess |- *.
    - by rewrite lookup_insert_ne, Hsess by done.
    - by rewrite !lookup_insert_ne, Hsess by done. }
  split; [done|]. unfold click_save.
  destruct (save_changes table_name df edited_df st) as [o st1].
  pose proof (show_messages_other (session_state st1) k Hs He) as Hshow.
  destruct (show_messages (session_state st1)) as [page ss']. cbn in *.
  by rewrite Hshow.
Qed.

End SessionFrame.

Section LocalSidebarFacts.
Context {os : OS}.

(** X24. The desktop sidebar keeps the stored path a text or [None]: on
    such a session it never fails, it leaves such a session with the key in
    place, and when it lets the script go on the URL is made of the stored
    path, which is not empty and names a file that exists. *)
Theorem local_sidebar_keeps_path_text clicked ss fs :
  (∀ v, ss !! "db_path" = Some v -> v = SNone ∨ ∃ p, v = SStr p) ->
  match local_sidebar clicked ss fs with
  | (ss', page, next) =>
      (∃ v, ss' !! "db_path" = Some v ∧ (v = SNone ∨ ∃ p, v = SStr p)) ∧
      match next with
      | Crash _ => False
      | Go db_url =>
          ∃ p, ss' !! "db_path" = Some (SStr p) ∧ p ≠ EmptyString ∧
               is_Some (fs !! p) ∧ db_url = "sqlite:///" +:+ p
      | Rerun | Stop => True
      end
  end.
Proof.
  intros Htext. unfold local_sidebar.
  set (ss0 := match ss !! "db_path" with
              | None => <["db_path" := SNone]> ss
              | Some _ => ss
              end).
  assert (H0 : ∃ v, ss0 !! "db_path" = Some v ∧ (v = SNone ∨ ∃ p, v = SStr p)).
  { unfold ss0. destruct (ss !! "db_path") as [v|] eqn:Hv.
    - exists v. eauto.
    - exists SNone. split; [apply lookup_insert_eq|by left]. }
  clearbody ss0. clear Htext.
  assert (Hrest : ∀ page,
    match
      match ss0 !! "db_path" with
      | None => (ss0, page, Crash (NoKey "db_path"))
      | Some selected_db_path =>
          if truthy selected_db_path then
            if path_exists selected_db_path fs then
              match basename selected_db_path with
              | inr file =>
                  (ss0,
                   page ++ [Success (SStr ("Loaded: `" +:+ file +:+ "`"));
                            Caption (SStr ("Path: " +:+ py_str selected_db_path))],
                   Go ("sqlite:///" +:+ py_str selected_db_path))
              | inl e => (ss0, page, Crash e)
              end
            else
              (<["db_path" := SNone]> ss0,
               page ++ [Failure (SStr "Selected file not found. Please select again.")],
               Stop)
          else (ss0, page ++ [Info (SStr "Please select a database file.")], Stop)
      end
    with
    | (ss', page, next) =>
        (∃ v, ss' !! "db_path" = Some v ∧ (v = SNone ∨ ∃ p, v = SStr p)) ∧
        match next with
        | Crash _ => False
        | Go db_url =>
            ∃ p, ss' !! "db_path" = Some (SStr p) ∧ p ≠ EmptyString ∧
                 is_Some (fs !! p) ∧ db_url = "sqlite:///" +:+ p
        | Rerun | Stop => True
        end
    end).
  { intros page. destruct H0 as (v & Hv & [->|[p ->]]); rewrite Hv; cbn.
    - split; [|done]. exists SNone. by split; [|left].
    - case_bool_decide as Hp; cbn.
      + split; [|done]. exists (SStr p). split; [done|]. right. by exists p.
      + rewrite path_exists_str. case_bool_decide as Hin; cbn.
        * split; [exists (SStr p); split; [done|right; by exists p]|].
          by exists p.
        * split; [|done]. exists SNone.
          split; [apply lookup_insert_eq|by left]. }
  destruct clicked as [result|]; [|apply Hrest].
  unfold click_open_file, select_file.
  destruct result as [e|returncode stdout]; [apply Hrest|].
  case_bool_decide; [|apply Hrest].
  case_bool_decide; cbn [negb]; [apply Hrest|].
  split; [|done]. exists (SStr (strip stdout)).
  split; [apply lookup_insert_eq|]. right. by eexists.
Qed.

End LocalSidebarFacts.

Lemma upload_settles_after_rerun_witness :
  (∅ : gmap string sval) !! "last_uploaded_file" ≠ Some (SStr "shop.db") ∧
  cloud_sidebar (os := Machine.os) (Some (mkUpload "shop.db" "SQLite")) true
    (<["last_uploaded_file" := SStr "shop.db"]>
       (<["db_path" := SStr "/tmp/.db"]> ∅))
    (<["/tmp/.db" := "SQLite"]> ∅)
  = (<["last_uploaded_file" := SStr "shop.db"]>
       (<["db_path" := SStr "/tmp/.db"]> ∅),
     <["/tmp/.db" := "SQLite"]> ∅,
     [Success (SStr "Loaded: `shop.db`");
      Download "shop.db" "SQLite";
      Info (SStr "⚠️ Le modifiche sono temporanee. Scarica il file per salvarle permanentemente.")],
     Go "sqlite:////tmp/.db").
Proof.
  assert (Hnew : (∅ : gmap string sval) !! "last_uploaded_file"
                 ≠ Some (SStr "shop.db")).
  { apply (bool_decide_unpack _). vm_compute. exact I. }
  split; [exact Hnew|].
  exact (proj2 (proj2 (upload_settles_after_rerun (os := Machine.os)
                         (mkUpload "shop.db" "SQLite") false true ∅ ∅ Hnew))).
Defined.

Lemma same_name_upload_ignored_witness :
  ({["last_uploaded_file" := SStr "shop.db"]} : gmap string sval)
    !! "last_uploaded_file" = Some (SStr "shop.db") ∧
  (cloud_sidebar (os := Machine.os) (Some (mkUpload "shop.db" "new bytes")) false
     {["last_uploaded_file" := SStr "shop.db"]} ∅).1.1
  = ({["last_uploaded_file" := SStr "shop.db"]}, ∅).
Proof.
  split; [reflexivity|].
  apply (same_name_upload_ignored (os := Machine.os) "shop.db" "new bytes"
           "old bytes" false {["last_uploaded_file" := SStr "shop.db"]} ∅).
  reflexivity.
Defined.

Lemma removed_upload_forgotten_witness :
  ({["db_path" := SStr "/tmp/a.db"]} : gmap string sval) !! "db_path"
  = Some (SStr "/tmp/a.db") ∧
  ∃ fs',
    cloud_sidebar (os := Machine.os) None false
      {["db_path" := SStr "/tmp/a.db"]} {["/tmp/a.db" := "SQLite"]}
    = (<["last_uploaded_file" := SNone]>
         (<["db_path" := SNone]> {["db_path" := SStr "/tmp/a.db"]}),
       fs', [Info (SStr "Upload a database to start.")], Stop) ∧
    fs' !! "/tmp/a.db" = None.
Proof.
  assert (Hpath : ({["db_path" := SStr "/tmp/a.db"]} : gmap string sval)
                    !! "db_path" = Some (SStr "/tmp/a.db")) by reflexivity.
  split; [exact Hpath|].
  destruct (removed_upload_forgotten (os := Machine.os) false
              {["db_path" := SStr "/tmp/a.db"]} {["/tmp/a.db" := "SQLite"]}
              (SStr "/tmp/a.db") Hpath) as (fs' & Hrun & _ & Hgone & _).
  exists fs'. split; [exact Hrun|].
  apply (Hgone eq_refl "/tmp/a.db" eq_refl). discriminate.
Defined.

Lemma cloud_sidebar_never_crashes_witness :
  cloud_reachable (os := Machine.os)
    (<["last_uploaded_file" := SStr "shop.db"]>
       (<["db_path" := SStr "/tmp/.db"]> ∅))
    (<["/tmp/.db" := "SQLite"]> ∅) ∧
  ∃ p,
    (<["last_uploaded_file" := SStr "shop.db"]>
       (<["db_path" := SStr "/tmp/.db"]> ∅) : gmap string sval) !! "db_path"
    = Some (SStr p) ∧ p ≠ EmptyString ∧
    "sqlite:////tmp/.db" = "sqlite:///" +:+ p.
Proof.
  assert (Hreach : cloud_reachable (os := Machine.os)
            (<["last_uploaded_file" := SStr "shop.db"]>
               (<["db_path" := SStr "/tmp/.db"]> ∅))
            (<["/tmp/.db" := "SQLite"]> ∅)).
  { apply (reach_sidebar (os := Machine.os)
             (Some (mkUpload "shop.db" "SQLite")) false ∅ ∅ _ _ [] Rerun).
    - apply reach_new; reflexivity.
    - reflexivity. }
  split; [exact Hreach|].
  exact (cloud_sidebar_never_crashes (os := Machine.os) _ _
           (Some (mkUpload "shop.db" "other")) false Hreach).
Defined.

Lemma selected_file_becomes_url_witness :
  ascii_text "/tmp/shop.db " = true ∧ blank "/tmp/shop.db " = false ∧
  ∃ ss1,
    local_sidebar (os := Machine.os) (Some (Exited 0 "/tmp/shop.db ")) ∅
      {["/tmp/shop.db" := "SQLite"]}
    = (ss1, [], Rerun) ∧
    ss1 !! "db_path" = Some (SStr "/tmp/shop.db").
Proof.
  assert (Htext : ascii_text "/tmp/shop.db " = true) by reflexivity.
  assert (Hblank : blank "/tmp/shop.db " = false) by reflexivity.
  split; [exact Htext|]. split; [exact Hblank|].
  destruct (selected_file_becomes_url (os := Machine.os) "/tmp/shop.db " ∅
              {["/tmp/shop.db" := "SQLite"]} Htext Hblank)
    as (ss1 & Hrun & Hpath & _).
  exists ss1. split; [exact Hrun|exact Hpath].
Defined.

Lemma lost_file_asks_again_witness :
  ({["db_path" := SStr "/tmp/gone.db"]} : gmap string sval) !! "db_path"
  = Some (SStr "/tmp/gone.db") ∧
  local_sidebar (os := Machine.os) None
    (<["db_path" := SNone]> {["db_path" := SStr "/tmp/gone.db"]})
    {["/tmp/gone.db" := "SQLite"]}
  = (<["db_path" := SNone]> {["db_path" := SStr "/tmp/gone.db"]},
     [Info (SStr "Please select a database file.")], Stop).
Proof.
  split; [reflexivity|].
  apply (lost_file_asks_again (os := Machine.os) "/tmp/gone.db"
           {["db_path" := SStr "/tmp/gone.db"]} ∅ {["/tmp/gone.db" := "SQLite"]});
    [reflexivity|discriminate|reflexivity].
Defined.

Lemma local_sidebar_keeps_path_text_witness :
  match local_sidebar (os := Machine.os) None
          {["db_path" := SStr "/tmp/shop.db"]} {["/tmp/shop.db" := "SQLite"]}
  with
  | (ss', page, next) =>
      (∃ v, ss' !! "db_path" = Some v ∧ (v = SNone ∨ ∃ p, v = SStr p)) ∧
      match next with
      | Crash _ => False
      | Go db_url =>
          ∃ p, ss' !! "db_path" = Some (SStr p) ∧ p ≠ EmptyString ∧
               is_Some (({["/tmp/shop.db" := "SQLite"]} : files) !! p) ∧
               db_url = "sqlite:///" +:+ p
      | Rerun | Stop => True
      end
  end.
Proof.
  apply (local_sidebar_keeps_path_text (os := Machine.os) None
           {["db_path" := SStr "/tmp/shop.db"]} {["/tmp/shop.db" := "SQLite"]}).
  intros v Hv. right. exists "/tmp/shop.db".
  rewrite lookup_singleton_eq in Hv. congruence.
Defined.

Lemma save_writes_three_keys_witness :
  "db_path" ≠ trigger_key "t" ∧
  session_state
    (click_save (host := Store.host) "t" O_a E_z
       (@mkState Store.host d_a d_a [] {["db_path" := SStr "/tmp/shop.db"]} [])).2
    !! "db_path"
  = Some (SStr "/tmp/shop.db").
Proof.
  split; [discriminate|].
  destruct (save_writes_three_keys (host := Store.host) "t" O_a E_z
              (@mkState Store.host d_a d_a []
                 {["db_path" := SStr "/tmp/shop.db"]} [])
              "db_path") as [_ Hclick]; [discriminate..|].
  exact Hclick.
Defined.

(** ** Rows compared with their dtype (lines 207-215) *)

Section RowDtype.
Context {host : Host}.

Lemma row_of_dtype ids df rid row :
  row_of ids df rid = inr row -> s_dtype row = payload_dtype df.
Proof.
  unfold row_of, existing_rows, rows_where, set_index, loc, payload_dtype.
  destruct (label_pos "rowid" (columns df)) as [i|] eqn:Hpos; [|done].
  cbn. rewrite Hpos. cbn.
  destruct (List.find _ _) as [r|]; [|done]. by intros [= <-].
Qed.

(** X25. Rows are compared with their dtype.  When the payload columns of
    the edited snapshot do not have the common dtype of those of the original
    snapshot - an integer column that an added empty row turned into a
    float64 column - a run that commits sends an UPDATE for every identifier
    the two snapshots share, whatever the cells of its row. *)
Theorem dtype_change_updates_row table_name O E st orig cur rid row_new row_orig :
  (save_changes table_name O E st).1 = Commit ->
  get_ids O = inr orig -> get_ids E = inr cur ->
  rid ∈ common_ids orig cur ->
  row_of (common_ids orig cur) E rid = inr row_new ->
  row_of (common_ids orig cur) O rid = inr row_orig ->
  payload_dtype E ≠ payload_dtype O ->
  (update_stmt table_name rid row_new, None)
    ∈ sent (save_changes table_name O E st).2.
Proof.
  intros Hcommit HO HE Hrid Hn Ho Hdt.
  assert (Hne : row_new ≠ row_orig).
  { intros ->. apply Hdt.
    by rewrite <- (row_of_dtype _ _ _ _ Hn), <- (row_of_dtype _ _ _ _ Ho). }
  unfold row_of in Hn, Ho.
  destruct (committed_log _ _ _ _ Hcommit)
    as (orig' & cur' & new_rows & fe & fo & HO' & HE' & _ & Hfe & Hfo & -> & _).
  rewrite HO in HO'. rewrite HE in HE'.
  injection HO' as <-. injection HE' as <-.
  rewrite Hfe in Hn. rewrite Hfo in Ho.
  unfold planned. rewrite !map_app, !elem_of_app. right. right.
  rewrite list_elem_of_In. apply (in_map went_through).
  unfold planned_updates. apply in_flat_map. exists rid. split.
  - by apply list_elem_of_In, in_set_order.
  - rewrite Hn, Ho. unfold series_equals. rewrite bool_decide_false by done.
    by left.
Qed.

End RowDtype.

Lemma dtype_change_updates_row_witness :
  (run O_n E_n_new d_n).1 = Commit ∧
  payload_dtype E_n_new ≠ payload_dtype O_n ∧
  (update_stmt (host := Store.host) "t" 1 (mkSeries ["n"] Float64 [VInt 5]), None)
    ∈ sent (run O_n E_n_new d_n).2.
Proof.
  assert (Hcommit : (run O_n E_n_new d_n).1 = Commit) by reflexivity.
  assert (Hdt : payload_dtype E_n_new ≠ payload_dtype O_n) by discriminate.
  split; [exact Hcommit|]. split; [exact Hdt|].
  apply (dtype_change_updates_row (host := Store.host) "t" O_n E_n_new
           (Store.fresh d_n) (list_to_set [1%Z]) (list_to_set [1%Z]) 1%Z
           (mkSeries ["n"] Float64 [VInt 5]) (mkSeries ["n"] Int64 [VInt 5])
           Hcommit).
  - reflexivity.
  - reflexivity.
  - apply (bool_decide_unpack _). vm_compute. exact I.
  - reflexivity.
  - reflexivity.
  - exact Hdt.
Defined.
